(** * minimalist-cv: the resume record, its wire projection, the Read API,
      the section renderers and the command palette.

    The definitions follow the TypeScript of the repository:
    - [Types]       src/lib/types.ts              (interfaces of the resume record)
    - [TypeDefs]    src/apollo/type-defs.ts       (the GraphQL object classes)
    - [Data]        src/data/resume-data.tsx      (the record)
    - [Resolvers]   src/apollo/resolvers.ts       (reactNodeToString, resumeDataToGraphQL, MeResolver)
    - [Js]          the same resolver over a store of JavaScript objects and arrays
    - [GraphQL]     validation and execution of a selection, as DOCS/API-REFERENCE.md documents them
    - [Route]       src/app/graphql/route.ts      (schema construction and its fallback)
    - [Page]        src/app/page.tsx              (the list sections)
    - [CommandMenu] src/components/command-menu.tsx
    - [App]         the two routes side by side

    The properties come after the definitions; those of the resolver over
    the store are in [JsFacts]. *)

From Stdlib Require Import ZArith Lia.
From stdpp Require Import base option list strings pretty.

#[local] Set Warnings "-register-all".
Local Open Scope string_scope.
Local Open Scope list_scope.

(** ** React nodes (the [ReactNode] of "react", as far as the data uses it) *)

(** A node is a primitive (string, number, boolean, null, undefined) or an
    element with a type, properties and children; [<>...</>] is the element
    of type [Fragment]. *)
Inductive ReactNode : Type :=
| RString (s : string)
| RNumber (n : Z)
| RBoolean (b : bool)
| RNull
| RUndefined
| RElement (type : string) (props : list (string * string)) (children : list ReactNode).

(** JavaScript's [typeof] on a node. *)
Definition typeof (node : ReactNode) : string :=
  match node with
  | RString _ => "string"
  | RNumber _ => "number"
  | RBoolean _ => "boolean"
  | RUndefined => "undefined"
  | RNull | RElement _ _ _ => "object"
  end.

(** The text runs of a node in document order (used to say what the
    placeholder of [reactNodeToString] leaves out). *)
Fixpoint textContent (node : ReactNode) : string :=
  match node with
  | RString s => s
  | RElement _ _ children =>
      (fix go (l : list ReactNode) : string :=
         match l with
         | [] => ""
         | c :: l' => String.append (textContent c) (go l')
         end) children
  | _ => ""
  end.

(** ** src/lib/types.ts *)

Module Types.

Module Social.
Record t : Type := mk {
  name : string;
  url : string;
  icon : ReactNode;
  navbar : option bool
}.
End Social.

Module Contact.
Record t : Type := mk {
  email : string;
  tel : string;
  social : list Social.t
}.
End Contact.

Module Work.
Record t : Type := mk {
  company : string;
  title : string;
  logo : ReactNode;             (* logo?: ReactNode; absent is undefined *)
  start : string;
  end_ : string;
  description : string;
  link : option string;
  badges : option (list string)
}.
End Work.

Module Education.
Record t : Type := mk {
  school : string;
  degree : string;
  start : string;
  end_ : string;
  link : option string
}.
End Education.

Module ProjectLink.
Record t : Type := mk {
  type : string;
  href : string;
  icon : ReactNode
}.
End ProjectLink.

Module Project.
Record t : Type := mk {
  title : string;
  href : option string;
  dates : string;
  active : bool;
  description : string;
  technologies : list string;
  links : list ProjectLink.t;
  image : option string;
  video : option string
}.
End Project.

Module ResumeData.
Record t : Type := mk {
  name : string;
  initials : string;
  location : string;
  locationLink : string;
  about : string;
  summary : ReactNode;          (* string | ReactNode *)
  avatarUrl : string;
  personalWebsiteUrl : string;
  contact : Contact.t;
  education : list Education.t;
  work : list Work.t;
  skills : list string;
  projects : list Project.t
}.
End ResumeData.

End Types.

(** ** src/apollo/type-defs.ts *)

Module TypeDefs.

Module Social.
Record t : Type := mk {
  name : string;
  url : string;
  navbar : option bool
}.
End Social.

Module Contact.
Record t : Type := mk {
  email : string;
  tel : string;
  social : list Social.t
}.
End Contact.

Module Work.
Record t : Type := mk {
  company : string;
  title : string;
  start : string;
  end_ : string;
  description : string;
  link : option string;
  badges : option (list string)
}.
End Work.

Module Education.
Record t : Type := mk {
  school : string;
  degree : string;
  start : string;
  end_ : string;
  link : option string
}.
End Education.

Module Link.
Record t : Type := mk {
  type : string;
  href : string
}.
End Link.

Module Project.
Record t : Type := mk {
  title : string;
  href : option string;
  dates : string;
  active : bool;
  description : string;
  technologies : list string;
  links : list Link.t;
  image : option string;
  video : option string
}.
End Project.

Module Me.
Record t : Type := mk {
  name : string;
  initials : string;
  location : string;
  locationLink : string;
  about : string;
  summary : string;
  avatarUrl : string;
  personalWebsiteUrl : string;
  contact : Contact.t;
  education : list Education.t;
  work : list Work.t;
  skills : list string;
  projects : list Project.t
}.
End Me.

End TypeDefs.

(** ** src/data/resume-data.tsx *)

Module Data.
Import Types.

(** The record the data file exports, up to its [skills].  Its [projects]
    entries carry [techStack] and [link: {label, href}] where the
    [Project] interface above asks for [dates], [active], [technologies]
    and [links]; they are not values of [Project.t], and the typed record
    keeps the list empty. *)
Definition RESUME_DATA : ResumeData.t :=
  {| ResumeData.name := "Ban Nguyen";
     ResumeData.initials := "BN";
     ResumeData.location := "Ho Chi Minh City, Viet Nam";
     ResumeData.locationLink := "https://www.google.com/maps/place/Ho+Chi+Minh+City";
     ResumeData.about := "Product Manager";
     ResumeData.summary :=
       RString "Product Manager with a strategic marketing foundation and hands-on AI development expertise. Proven track record of delivering a 100% revenue increase at TIX.VN and achieving a CSAT of over 90% through AI-powered automation systems. Skilled in building comprehensive AI applications from the ground up using a modern stack (Python, TypeScript, Swift, Bash) and multi-agent architectures. My marketing background provides a unique advantage in driving product-led growth by combining customer psychology, market positioning, and strategic communication with technical AI implementation. My diverse educational background in Agriculture and Marketing fosters a systems-thinking approach to create customer-centric, innovative solutions that deliver measurable business impact.";
     ResumeData.avatarUrl := "https://angi.truanay.com/images/photo-2-square.jpg";
     ResumeData.personalWebsiteUrl := "https://ducban.com";
     ResumeData.contact :=
       {| Contact.email := "nguyenducban@me.com";
          Contact.tel := "+84983472120";
          Contact.social :=
            [ {| Social.name := "GitHub";
                 Social.url := "https://github.com/ban-nguyen";
                 Social.icon := RString "github";
                 Social.navbar := None |};
              {| Social.name := "LinkedIn";
                 Social.url := "https://www.linkedin.com/in/ban-nguyen/";
                 Social.icon := RString "linkedin";
                 Social.navbar := None |} ] |};
     ResumeData.education :=
       [ {| Education.school := "Swiss International University";
            Education.degree := "Bachelor's Degree, Marketing";
            Education.start := "2016";
            Education.end_ := "2018";
            Education.link := None |};
         {| Education.school := "Tay Nguyen University";
            Education.degree := "Bachelor's Degree, Faculty of Agriculture and Forestry";
            Education.start := "1997";
            Education.end_ := "2001";
            Education.link := None |} ];
     ResumeData.work :=
       [ {| Work.company := "MoMo (M_Service)";
            Work.link := Some "https://momo.vn/";
            Work.badges := Some ["AI"; "Fintech"; "Travel"];
            Work.title := "Product Management - Team Leader";
            Work.logo := RUndefined;
            Work.start := "2024";
            Work.end_ := "Present";
            Work.description := "Led product strategy for MoMo Travel, leveraging a marketing foundation to drive AI innovation. Developed custom AI applications and multi-agent systems, achieving a CSAT of over 90%. Implemented AI-powered competitive analysis, RAG-based knowledge systems, and robust data pipelines, significantly improving team efficiency and strategic decision-making." |};
         {| Work.company := "YODY Fashion JSC.";
            Work.link := Some "https://yody.vn/";
            Work.badges := Some ["E-commerce"; "Fashion"];
            Work.title := "Head of Product Development";
            Work.logo := RUndefined;
            Work.start := "2022";
            Work.end_ := "2023";
            Work.description := "Led the strategic transformation from a Sapo-based platform to a full omni-channel e-commerce solution. Utilized a BigQuery-based Customer Data Platform (CDP) to unify data and optimize the customer journey. Recruited and managed a cross-functional product team." |};
         {| Work.company := "TIKI";
            Work.link := Some "https://tiki.vn/";
            Work.badges := Some ["E-commerce"; "Marketplace"];
            Work.title := "Senior Product Manager";
            Work.logo := RUndefined;
            Work.start := "2020";
            Work.end_ := "2022";
            Work.description := "Launched and scaled DoriDori, Vietnam's first integrated C2C marketplace, achieving 20% daily active user retention. Led the development of the underlying OMS and CRM systems and expanded the digital service business, doubling its GMV." |};
         {| Work.company := "VNG Corporation";
            Work.link := Some "https://www.vng.com.vn/";
            Work.badges := Some ["Entertainment"; "Fintech"];
            Work.title := "Senior Product Manager";
            Work.logo := RUndefined;
            Work.start := "2019";
            Work.end_ := "2020";
            Work.description := "Managed TIX.VN, Vietnam's largest movie aggregator, and delivered a 100% revenue increase. Led the strategic integration with major cinema partners like CGV and established ZaloPay as a default payment option within the Zalo super-app." |};
         {| Work.company := "Leo Burnett Vietnam";
            Work.link := Some "https://leoburnett.com.vn/";
            Work.badges := Some ["Digital Marketing"];
            Work.title := "Digital Producer";
            Work.logo := RUndefined;
            Work.start := "2016";
            Work.end_ := "2019";
            Work.description := "Managed award-winning digital campaigns for major clients, winning MMAVN 2017's 'Best in Show'. Pioneered the first Spark AR implementation for a campaign in Vietnam, featured in a Facebook Spotlight." |};
         {| Work.company := "Y&R";
            Work.link := Some "https://www.yr.com/";
            Work.badges := Some ["Digital Marketing"];
            Work.title := "Digital Producer";
            Work.logo := RUndefined;
            Work.start := "2015";
            Work.end_ := "2016";
            Work.description := "Managed digital portfolios for global brands like Microsoft, Emirates, and Red Bull. Coordinated the idea development process between creative, accounts, and technical teams using agile methodologies." |};
         {| Work.company := "VNG Corporation";
            Work.link := Some "https://www.vng.com.vn/";
            Work.badges := Some ["Gaming"];
            Work.title := "Product Manager";
            Work.logo := RUndefined;
            Work.start := "2014";
            Work.end_ := "2015";
            Work.description := "Led product management for Vuigame.vn, achieving a 150% DAU increase and tripling time-on-site after a major relaunch. Acted as both Product Manager and Product Designer." |};
         {| Work.company := "Freelance";
            Work.link := Some "";
            Work.badges := Some ["Web Development"];
            Work.title := "Web Developer";
            Work.logo := RUndefined;
            Work.start := "2012";
            Work.end_ := "2014";
            Work.description := "Delivered full-stack web development projects, specializing in e-commerce. Worked on the front-end for TheGioiDiDong v3.0 and gained experience with international development standards and agile practices." |};
         {| Work.company := "TX INC.";
            Work.link := Some "";
            Work.badges := Some ["Social Network"];
            Work.title := "Product Manager";
            Work.logo := RUndefined;
            Work.start := "2011";
            Work.end_ := "2012";
            Work.description := "Led product management for Truongxua.com, one of Vietnam's first school-focused social networks. Managed a cross-functional team of over 15 members and achieved a 200% increase in new user acquisition." |} ];
     ResumeData.skills :=
       [ "Marketing-Driven Product Strategy";
         "Applied AI & Automation";
         "Custom AI Application Development";
         "Multi-Agent Systems Architecture";
         "Data Analysis & Analytics";
         "Cross-functional Team Leadership";
         "Vibe-Coding (Python, TypeScript, Swift)";
         "RAG & Knowledge Base Systems";
         "Data Pipeline Architecture (Supabase, BigQuery)";
         "Agile & Scrum Methodologies";
         "Prompt & Context Engineering";
         "Full-stack Development Understanding" ];
     ResumeData.projects := [] |}.

(** The [summary] of src/data/generic-resume-data.tsx: a fragment around
    one text run. *)
Definition generic_summary : ReactNode :=
  RElement "Fragment" [] [RString "Senior Product Manager"].

(** [RESUME_DATA] with that summary in place of its plain string. *)
Definition RESUME_DATA_rich_summary : ResumeData.t :=
  {| ResumeData.name := ResumeData.name RESUME_DATA;
     ResumeData.initials := ResumeData.initials RESUME_DATA;
     ResumeData.location := ResumeData.location RESUME_DATA;
     ResumeData.locationLink := ResumeData.locationLink RESUME_DATA;
     ResumeData.about := ResumeData.about RESUME_DATA;
     ResumeData.summary := generic_summary;
     ResumeData.avatarUrl := ResumeData.avatarUrl RESUME_DATA;
     ResumeData.personalWebsiteUrl := ResumeData.personalWebsiteUrl RESUME_DATA;
     ResumeData.contact := ResumeData.contact RESUME_DATA;
     ResumeData.education := ResumeData.education RESUME_DATA;
     ResumeData.work := ResumeData.work RESUME_DATA;
     ResumeData.skills := ResumeData.skills RESUME_DATA;
     ResumeData.projects := ResumeData.projects RESUME_DATA |}.

End Data.

(** ** src/apollo/resolvers.ts *)

Module Resolvers.
Import Types.

(** [Array.from] on an array: a new array with the same elements. *)
Definition Array_from {A : Type} (l : list A) : list A := map (fun x => x) l.

Definition reactNodeToString (node : ReactNode) : string :=
  match node with
  | RString s => s
  | _ => "[React Component]"
  end.

(** The arrow functions that [resumeDataToGraphQL] gives to [map]. *)

Definition social_arrow (s : Social.t) : TypeDefs.Social.t :=
  {| TypeDefs.Social.name := Social.name s;
     TypeDefs.Social.url := Social.url s;
     TypeDefs.Social.navbar := Social.navbar s |}.

Definition education_arrow (edu : Education.t) : TypeDefs.Education.t :=
  {| TypeDefs.Education.school := Education.school edu;
     TypeDefs.Education.degree := Education.degree edu;
     TypeDefs.Education.start := Education.start edu;
     TypeDefs.Education.end_ := Education.end_ edu;
     TypeDefs.Education.link := Education.link edu |}.

Definition work_arrow (w : Work.t) : TypeDefs.Work.t :=
  {| TypeDefs.Work.company := Work.company w;
     TypeDefs.Work.title := Work.title w;
     TypeDefs.Work.start := Work.start w;
     TypeDefs.Work.end_ := Work.end_ w;
     TypeDefs.Work.description := Work.description w;
     TypeDefs.Work.link := Work.link w;
     TypeDefs.Work.badges :=
       match Work.badges w with
       | Some badges => Some (Array_from badges)
       | None => None
       end |}.

Definition link_arrow (link : ProjectLink.t) : TypeDefs.Link.t :=
  {| TypeDefs.Link.type := ProjectLink.type link;
     TypeDefs.Link.href := ProjectLink.href link |}.

Definition project_arrow (p : Project.t) : TypeDefs.Project.t :=
  {| TypeDefs.Project.title := Project.title p;
     TypeDefs.Project.href := Project.href p;
     TypeDefs.Project.dates := Project.dates p;
     TypeDefs.Project.active := Project.active p;
     TypeDefs.Project.description := Project.description p;
     TypeDefs.Project.technologies := Array_from (Project.technologies p);
     TypeDefs.Project.links := map link_arrow (Project.links p);
     TypeDefs.Project.image := Project.image p;
     TypeDefs.Project.video := Project.video p |}.

Definition resumeDataToGraphQL (data : ResumeData.t) : TypeDefs.Me.t :=
  {| TypeDefs.Me.name := ResumeData.name data;
     TypeDefs.Me.initials := ResumeData.initials data;
     TypeDefs.Me.location := ResumeData.location data;
     TypeDefs.Me.locationLink := ResumeData.locationLink data;
     TypeDefs.Me.about := ResumeData.about data;
     TypeDefs.Me.summary :=
       match ResumeData.summary data with
       | RString s => s                                   (* typeof === "string" *)
       | _ => reactNodeToString (ResumeData.summary data)
       end;
     TypeDefs.Me.avatarUrl := ResumeData.avatarUrl data;
     TypeDefs.Me.personalWebsiteUrl := ResumeData.personalWebsiteUrl data;
     TypeDefs.Me.contact :=
       {| TypeDefs.Contact.email := Contact.email (ResumeData.contact data);
          TypeDefs.Contact.tel := Contact.tel (ResumeData.contact data);
          TypeDefs.Contact.social :=
            map social_arrow (Contact.social (ResumeData.contact data)) |};
     TypeDefs.Me.education := map education_arrow (ResumeData.education data);
     TypeDefs.Me.work := map work_arrow (ResumeData.work data);
     TypeDefs.Me.skills := Array_from (ResumeData.skills data);
     TypeDefs.Me.projects := map project_arrow (ResumeData.projects data) |}.

(** [MeResolver.me], for the record the module imports as [RESUME_DATA]. *)
Definition me (RESUME_DATA : ResumeData.t) : TypeDefs.Me.t :=
  resumeDataToGraphQL RESUME_DATA.

End Resolvers.

(** ** The resolver over a store of JavaScript objects

    [resumeDataToGraphQL] once more, now on run-time values: objects and
    arrays live in a store and are passed by reference, property reads go
    through the store, and every object literal, [Array.from] and
    [Array.prototype.map] allocates.  This is the model in which "the input
    is not written to" and "the result shares nothing with the input" can
    be said. *)

Module Js.

Abbreviation loc := nat.

Inductive value : Type :=
| VUndefined
| VNull
| VBoolean (b : bool)
| VNumber (n : Z)
| VString (s : string)
| VRef (l : loc).

Inductive object : Type :=
| OArray (elems : list value)
| OObject (props : list (string * value))
| OElement (type : string) (props : list (string * string)) (children : list ReactNode).

(** The store: location [l] is the [l]-th object ever allocated. *)
Abbreviation heap := (list object).

(** A computation ends with a value and a store, throws, or leaves the
    part of JavaScript that is modelled here ([Stuck]). *)
Inductive outcome (A : Type) : Type :=
| Ok (a : A) (h : heap)
| Throw (e : string)
| Stuck.
Arguments Ok {A} a h.
Arguments Throw {A} e.
Arguments Stuck {A}.

Definition M (A : Type) : Type := heap -> outcome A.

Definition ret {A : Type} (a : A) : M A := fun h => Ok a h.

Definition bind {A B : Type} (m : M A) (k : A -> M B) : M B :=
  fun h => match m h with
           | Ok a h' => k a h'
           | Throw e => Throw e
           | Stuck => Stuck
           end.

Notation "'let*' x ':=' m 'in' k" := (bind m (fun x => k))
  (at level 10, x name, m at level 100, k at level 200).

Definition typeof (v : value) : string :=
  match v with
  | VUndefined => "undefined"
  | VBoolean _ => "boolean"
  | VNumber _ => "number"
  | VString _ => "string"
  | VNull | VRef _ => "object"
  end.

(** [ToBoolean]. *)
Definition truthy (v : value) : bool :=
  match v with
  | VUndefined | VNull => false
  | VBoolean b => b
  | VNumber n => negb (Z.eqb n 0)
  | VString s => negb (String.eqb s "")
  | VRef _ => true
  end.

(** The first own property named [k]; [undefined] when there is none. *)
Fixpoint prop (props : list (string * value)) (k : string) : value :=
  match props with
  | [] => VUndefined
  | (k', v) :: props' => if String.eqb k' k then v else prop props' k
  end.

(** [v.k] *)
Definition get (v : value) (k : string) : M value :=
  fun h =>
    match v with
    | VUndefined | VNull => Throw "TypeError: Cannot read properties of undefined"
    | VRef l =>
        match h !! l with
        | Some (OObject props) => Ok (prop props k) h
        | _ => Stuck
        end
    | _ => Stuck
    end.

(** A new object or array: it takes the next location. *)
Definition alloc (o : object) : M value :=
  fun h => Ok (VRef (length h)) (h ++ [o]).

(** An object literal whose property values are already evaluated. *)
Definition new_object (props : list (string * value)) : M value :=
  alloc (OObject props).

(** [Array.from(v)] *)
Definition Array_from (v : value) : M value :=
  fun h =>
    match v with
    | VUndefined | VNull => Throw "TypeError: undefined is not iterable"
    | VRef l =>
        match h !! l with
        | Some (OArray elems) => alloc (OArray elems) h
        | _ => Stuck
        end
    | _ => Stuck
    end.

(** The callback applied to each element in index order. *)
Fixpoint each {A : Type} (f : A -> M value) (elems : list A) : M (list value) :=
  match elems with
  | [] => ret []
  | x :: elems' =>
      let* y := f x in
      let* ys := each f elems' in
      ret (y :: ys)
  end.

(** [v.map(f)] *)
Definition Array_map (v : value) (f : value -> M value) : M value :=
  fun h =>
    match v with
    | VUndefined | VNull => Throw "TypeError: Cannot read properties of undefined"
    | VRef l =>
        match h !! l with
        | Some (OArray elems) => (let* ys := each f elems in alloc (OArray ys)) h
        | _ => Stuck
        end
    | _ => Stuck
    end.

Definition reactNodeToString (node : value) : M value :=
  if String.eqb (typeof node) "string" then ret node
  else ret (VString "[React Component]").

(** The arrow functions given to [map]. *)

Definition social_arrow (s : value) : M value :=
  let* name := get s "name" in
  let* url := get s "url" in
  let* navbar := get s "navbar" in
  new_object [("name", name); ("url", url); ("navbar", navbar)].

Definition education_arrow (edu : value) : M value :=
  let* school := get edu "school" in
  let* degree := get edu "degree" in
  let* start := get edu "start" in
  let* end_ := get edu "end" in
  let* link := get edu "link" in
  new_object [("school", school); ("degree", degree); ("start", start);
              ("end", end_); ("link", link)].

Definition work_arrow (w : value) : M value :=
  let* company := get w "company" in
  let* title := get w "title" in
  let* start := get w "start" in
  let* end_ := get w "end" in
  let* description := get w "description" in
  let* link := get w "link" in
  let* badges :=
    (let* b := get w "badges" in
     if truthy b then (let* b' := get w "badges" in Array_from b')
     else ret VUndefined) in
  new_object [("company", company); ("title", title); ("start", start);
              ("end", end_); ("description", description); ("link", link);
              ("badges", badges)].

Definition link_arrow (link : value) : M value :=
  let* type := get link "type" in
  let* href := get link "href" in
  new_object [("type", type); ("href", href)].

Definition project_arrow (p : value) : M value :=
  let* title := get p "title" in
  let* href := get p "href" in
  let* dates := get p "dates" in
  let* active := get p "active" in
  let* description := get p "description" in
  let* technologies := (let* t := get p "technologies" in Array_from t) in
  let* links := (let* links := get p "links" in Array_map links link_arrow) in
  let* image := get p "image" in
  let* video := get p "video" in
  new_object [("title", title); ("href", href); ("dates", dates);
              ("active", active); ("description", description);
              ("technologies", technologies); ("links", links);
              ("image", image); ("video", video)].

Definition resumeDataToGraphQL (data : value) : M value :=
  let* name := get data "name" in
  let* initials := get data "initials" in
  let* location := get data "location" in
  let* locationLink := get data "locationLink" in
  let* about := get data "about" in
  let* summary :=
    (let* s := get data "summary" in
     if String.eqb (typeof s) "string" then get data "summary"
     else let* node := get data "summary" in reactNodeToString node) in
  let* avatarUrl := get data "avatarUrl" in
  let* personalWebsiteUrl := get data "personalWebsiteUrl" in
  let* contact :=
    (let* email := (let* c := get data "contact" in get c "email") in
     let* tel := (let* c := get data "contact" in get c "tel") in
     let* social :=
       (let* c := get data "contact" in
        let* social := get c "social" in
        Array_map social social_arrow) in
     new_object [("email", email); ("tel", tel); ("social", social)]) in
  let* education :=
    (let* education := get data "education" in
     Array_map education education_arrow) in
  let* work := (let* work := get data "work" in Array_map work work_arrow) in
  let* skills := (let* skills := get data "skills" in Array_from skills) in
  let* projects :=
    (let* projects := get data "projects" in Array_map projects project_arrow) in
  new_object [("name", name); ("initials", initials); ("location", location);
              ("locationLink", locationLink); ("about", about);
              ("summary", summary); ("avatarUrl", avatarUrl);
              ("personalWebsiteUrl", personalWebsiteUrl); ("contact", contact);
              ("education", education); ("work", work); ("skills", skills);
              ("projects", projects)].

(** *** Reading typed records back from the store

    A decoder reads the value of an interface of lib/types.ts or of a class
    of type-defs.ts out of the store: an object may carry more properties
    than the interface names, an optional property may be absent or
    [undefined]. *)

Definition dec (A : Type) : Type := heap -> value -> option A.

Definition read_string : dec string :=
  fun _ v => match v with VString s => Some s | _ => None end.

Definition read_boolean : dec bool :=
  fun _ v => match v with VBoolean b => Some b | _ => None end.

Definition read_optional {A : Type} (d : dec A) : dec (option A) :=
  fun h v => match v with VUndefined => Some None | _ => Some <$> d h v end.

Definition read_node : dec ReactNode :=
  fun h v =>
    match v with
    | VUndefined => Some RUndefined
    | VNull => Some RNull
    | VBoolean b => Some (RBoolean b)
    | VNumber n => Some (RNumber n)
    | VString s => Some (RString s)
    | VRef l =>
        match h !! l with
        | Some (OElement type props children) => Some (RElement type props children)
        | _ => None
        end
    end.

Definition read_array {A : Type} (d : dec A) : dec (list A) :=
  fun h v =>
    match v with
    | VRef l =>
        match h !! l with
        | Some (OArray elems) => mapM (d h) elems
        | _ => None
        end
    | _ => None
    end.

Definition read_object : dec (list (string * value)) :=
  fun h v =>
    match v with
    | VRef l =>
        match h !! l with
        | Some (OObject props) => Some props
        | _ => None
        end
    | _ => None
    end.

Definition read_Social : dec Types.Social.t :=
  fun h v =>
    ps ← read_object h v;
    name ← read_string h (prop ps "name");
    url ← read_string h (prop ps "url");
    icon ← read_node h (prop ps "icon");
    navbar ← read_optional read_boolean h (prop ps "navbar");
    Some (Types.Social.mk name url icon navbar).

Definition read_Contact : dec Types.Contact.t :=
  fun h v =>
    ps ← read_object h v;
    email ← read_string h (prop ps "email");
    tel ← read_string h (prop ps "tel");
    social ← read_array read_Social h (prop ps "social");
    Some (Types.Contact.mk email tel social).

Definition read_Work : dec Types.Work.t :=
  fun h v =>
    ps ← read_object h v;
    company ← read_string h (prop ps "company");
    title ← read_string h (prop ps "title");
    logo ← read_node h (prop ps "logo");
    start ← read_string h (prop ps "start");
    end_ ← read_string h (prop ps "end");
    description ← read_string h (prop ps "description");
    link ← read_optional read_string h (prop ps "link");
    badges ← read_optional (read_array read_string) h (prop ps "badges");
    Some (Types.Work.mk company title logo start end_ description link badges).

Definition read_Education : dec Types.Education.t :=
  fun h v =>
    ps ← read_object h v;
    school ← read_string h (prop ps "school");
    degree ← read_string h (prop ps "degree");
    start ← read_string h (prop ps "start");
    end_ ← read_string h (prop ps "end");
    link ← read_optional read_string h (prop ps "link");
    Some (Types.Education.mk school degree start end_ link).

Definition read_ProjectLink : dec Types.ProjectLink.t :=
  fun h v =>
    ps ← read_object h v;
    type ← read_string h (prop ps "type");
    href ← read_string h (prop ps "href");
    icon ← read_node h (prop ps "icon");
    Some (Types.ProjectLink.mk type href icon).

Definition read_Project : dec Types.Project.t :=
  fun h v =>
    ps ← read_object h v;
    title ← read_string h (prop ps "title");
    href ← read_optional read_string h (prop ps "href");
    dates ← read_string h (prop ps "dates");
    active ← read_boolean h (prop ps "active");
    description ← read_string h (prop ps "description");
    technologies ← read_array read_string h (prop ps "technologies");
    links ← read_array read_ProjectLink h (prop ps "links");
    image ← read_optional read_string h (prop ps "image");
    video ← read_optional read_string h (prop ps "video");
    Some (Types.Project.mk title href dates active description technologies
            links image video).

Definition read_ResumeData : dec Types.ResumeData.t :=
  fun h v =>
    ps ← read_object h v;
    name ← read_string h (prop ps "name");
    initials ← read_string h (prop ps "initials");
    location ← read_string h (prop ps "location");
    locationLink ← read_string h (prop ps "locationLink");
    about ← read_string h (prop ps "about");
    summary ← read_node h (prop ps "summary");
    avatarUrl ← read_string h (prop ps "avatarUrl");
    personalWebsiteUrl ← read_string h (prop ps "personalWebsiteUrl");
    contact ← read_Contact h (prop ps "contact");
    education ← read_array read_Education h (prop ps "education");
    work ← read_array read_Work h (prop ps "work");
    skills ← read_array read_string h (prop ps "skills");
    projects ← read_array read_Project h (prop ps "projects");
    Some (Types.ResumeData.mk name initials location locationLink about summary
            avatarUrl personalWebsiteUrl contact education work skills projects).

(** The classes of type-defs.ts. *)

Definition read_GSocial : dec TypeDefs.Social.t :=
  fun h v =>
    ps ← read_object h v;
    name ← read_string h (prop ps "name");
    url ← read_string h (prop ps "url");
    navbar ← read_optional read_boolean h (prop ps "navbar");
    Some (TypeDefs.Social.mk name url navbar).

Definition read_GContact : dec TypeDefs.Contact.t :=
  fun h v =>
    ps ← read_object h v;
    email ← read_string h (prop ps "email");
    tel ← read_string h (prop ps "tel");
    social ← read_array read_GSocial h (prop ps "social");
    Some (TypeDefs.Contact.mk email tel social).

Definition read_GWork : dec TypeDefs.Work.t :=
  fun h v =>
    ps ← read_object h v;
    company ← read_string h (prop ps "company");
    title ← read_string h (prop ps "title");
    start ← read_string h (prop ps "start");
    end_ ← read_string h (prop ps "end");
    description ← read_string h (prop ps "description");
    link ← read_optional read_string h (prop ps "link");
    badges ← read_optional (read_array read_string) h (prop ps "badges");
    Some (TypeDefs.Work.mk company title start end_ description link badges).

Definition read_GEducation : dec TypeDefs.Education.t :=
  fun h v =>
    ps ← read_object h v;
    school ← read_string h (prop ps "school");
    degree ← read_string h (prop ps "degree");
    start ← read_string h (prop ps "start");
    end_ ← read_string h (prop ps "end");
    link ← read_optional read_string h (prop ps "link");
    Some (TypeDefs.Education.mk school degree start end_ link).

Definition read_GLink : dec TypeDefs.Link.t :=
  fun h v =>
    ps ← read_object h v;
    type ← read_string h (prop ps "type");
    href ← read_string h (prop ps "href");
    Some (TypeDefs.Link.mk type href).

Definition read_GProject : dec TypeDefs.Project.t :=
  fun h v =>
    ps ← read_object h v;
    title ← read_string h (prop ps "title");
    href ← read_optional read_string h (prop ps "href");
    dates ← read_string h (prop ps "dates");
    active ← read_boolean h (prop ps "active");
    description ← read_string h (prop ps "description");
    technologies ← read_array read_string h (prop ps "technologies");
    links ← read_array read_GLink h (prop ps "links");
    image ← read_optional read_string h (prop ps "image");
    video ← read_optional read_string h (prop ps "video");
    Some (TypeDefs.Project.mk title href dates active description technologies
            links image video).

Definition read_Me : dec TypeDefs.Me.t :=
  fun h v =>
    ps ← read_object h v;
    name ← read_string h (prop ps "name");
    initials ← read_string h (prop ps "initials");
    location ← read_string h (prop ps "location");
    locationLink ← read_string h (prop ps "locationLink");
    about ← read_string h (prop ps "about");
    summary ← read_string h (prop ps "summary");
    avatarUrl ← read_string h (prop ps "avatarUrl");
    personalWebsiteUrl ← read_string h (prop ps "personalWebsiteUrl");
    contact ← read_GContact h (prop ps "contact");
    education ← read_array read_GEducation h (prop ps "education");
    work ← read_array read_GWork h (prop ps "work");
    skills ← read_array read_string h (prop ps "skills");
    projects ← read_array read_GProject h (prop ps "projects");
    Some (TypeDefs.Me.mk name initials location locationLink about summary
            avatarUrl personalWebsiteUrl contact education work skills projects).

(** *** Object literals of the data file

    What evaluating the literal of a record allocates: one object per
    record, one array per list, one element object per React element;
    an optional property that is [None] is left out. *)

Definition optional_prop {A : Type} (k : string) (inj : A -> value) (o : option A)
  : list (string * value) :=
  match o with
  | Some a => [(k, inj a)]
  | None => []
  end.

Definition store_node (node : ReactNode) : M value :=
  match node with
  | RString s => ret (VString s)
  | RNumber n => ret (VNumber n)
  | RBoolean b => ret (VBoolean b)
  | RNull => ret VNull
  | RUndefined => ret VUndefined
  | RElement type props children => alloc (OElement type props children)
  end.

Definition store_array {A : Type} (st : A -> M value) (l : list A) : M value :=
  let* vs := each st l in alloc (OArray vs).

Definition store_strings (l : list string) : M value :=
  store_array (fun s => ret (VString s)) l.

Definition store_Social (s : Types.Social.t) : M value :=
  let* icon := store_node (Types.Social.icon s) in
  new_object ([("name", VString (Types.Social.name s));
               ("url", VString (Types.Social.url s));
               ("icon", icon)]
              ++ optional_prop "navbar" VBoolean (Types.Social.navbar s)).

Definition store_Contact (c : Types.Contact.t) : M value :=
  let* social := store_array store_Social (Types.Contact.social c) in
  new_object [("email", VString (Types.Contact.email c));
              ("tel", VString (Types.Contact.tel c));
              ("social", social)].

Definition store_Education (e : Types.Education.t) : M value :=
  new_object ([("school", VString (Types.Education.school e));
               ("degree", VString (Types.Education.degree e));
               ("start", VString (Types.Education.start e));
               ("end", VString (Types.Education.end_ e))]
              ++ optional_prop "link" VString (Types.Education.link e)).

Definition store_Work (w : Types.Work.t) : M value :=
  let* logo := store_node (Types.Work.logo w) in
  let* badges :=
    match Types.Work.badges w with
    | Some l => store_strings l
    | None => ret VUndefined
    end in
  new_object [("company", VString (Types.Work.company w));
              ("link", match Types.Work.link w with
                       | Some s => VString s
                       | None => VUndefined
                       end);
              ("badges", badges);
              ("title", VString (Types.Work.title w));
              ("logo", logo);
              ("start", VString (Types.Work.start w));
              ("end", VString (Types.Work.end_ w));
              ("description", VString (Types.Work.description w))].

Definition store_ProjectLink (l : Types.ProjectLink.t) : M value :=
  let* icon := store_node (Types.ProjectLink.icon l) in
  new_object [("type", VString (Types.ProjectLink.type l));
              ("href", VString (Types.ProjectLink.href l));
              ("icon", icon)].

Definition store_Project (p : Types.Project.t) : M value :=
  let* technologies := store_strings (Types.Project.technologies p) in
  let* links := store_array store_ProjectLink (Types.Project.links p) in
  new_object ([("title", VString (Types.Project.title p))]
              ++ optional_prop "href" VString (Types.Project.href p)
              ++ [("dates", VString (Types.Project.dates p));
                  ("active", VBoolean (Types.Project.active p));
                  ("description", VString (Types.Project.description p));
                  ("technologies", technologies);
                  ("links", links)]
              ++ optional_prop "image" VString (Types.Project.image p)
              ++ optional_prop "video" VString (Types.Project.video p)).

(** The literal of the whole record, its [projects] given apart. *)
Definition store_ResumeData_with (projects : M value) (d : Types.ResumeData.t)
  : M value :=
  let* summary := store_node (Types.ResumeData.summary d) in
  let* contact := store_Contact (Types.ResumeData.contact d) in
  let* education := store_array store_Education (Types.ResumeData.education d) in
  let* work := store_array store_Work (Types.ResumeData.work d) in
  let* skills := store_strings (Types.ResumeData.skills d) in
  let* projects := projects in
  new_object [("name", VString (Types.ResumeData.name d));
              ("initials", VString (Types.ResumeData.initials d));
              ("location", VString (Types.ResumeData.location d));
              ("locationLink", VString (Types.ResumeData.locationLink d));
              ("about", VString (Types.ResumeData.about d));
              ("summary", summary);
              ("avatarUrl", VString (Types.ResumeData.avatarUrl d));
              ("personalWebsiteUrl", VString (Types.ResumeData.personalWebsiteUrl d));
              ("contact", contact);
              ("education", education);
              ("work", work);
              ("skills", skills);
              ("projects", projects)].

Definition store_ResumeData (d : Types.ResumeData.t) : M value :=
  store_ResumeData_with (store_array store_Project (Types.ResumeData.projects d)) d.

(** *** The projects of the data file

    The entries of [projects] as src/data/resume-data.tsx writes them:
    [title], [techStack], [description] and [link: { label, href }]. *)

Definition shipped_project (title : string) (techStack : list string)
    (description label href : string) : M value :=
  let* techStack := store_strings techStack in
  let* link := new_object [("label", VString label); ("href", VString href)] in
  new_object [("title", VString title); ("techStack", techStack);
              ("description", VString description); ("link", link)].

Definition shipped_projects : M value :=
  store_array (fun p => p)
    [ shipped_project "Human Act Prize 2024"
        ["Social Impact"; "Strategic Value Alignment"]
        "Won the Human Act Prize for Sustainable Development Ideas for the 'Góp Lá Vá Rừng' initiative, aligning product innovation with social impact."
        "Human Act Prize" "https://www.humanactprize.org/";
      shipped_project "MMVN 2017 Awards"
        ["Marketing Innovation"; "Mobile Creative"]
        "Won 'Best in Show', 'Most Engaging Mobile Creative', and 'Mobile Website' awards for creating market-leading digital experiences."
        "MMA Smarties" "https://www.mmasmarties.com/about";
      shipped_project "Facebook Spotlight 2019"
        ["AR"; "Technical Innovation"]
        "Featured for a pioneering Spark AR implementation, showcasing the intersection of technical innovation and marketing creativity."
        "Spark AR" "https://sparkar.facebook.com/ar-studio/";
      shipped_project "First CGV Cinema Integration"
        ["Market Leadership"; "Strategic Partnership"]
        "Led TIX.VN to become the first movie aggregator in Vietnam to successfully integrate with the CGV cinema chain."
        "TIX.VN" "https://tix.vn/";
      shipped_project "Vietnam's First C2C Marketplace"
        ["Innovation Leadership"; "Marketplace"]
        "Launched the first integrated C2C marketplace in Vietnam, identifying and capitalizing on a new market opportunity."
        "TIKI" "https://tiki.vn/" ].

(** *** Which locations a value reaches *)

(** The values an object holds. *)
Definition obj_values (o : object) : list value :=
  match o with
  | OArray elems => elems
  | OObject props => map snd props
  | OElement _ _ _ => []
  end.

(** The objects reached from [v] in at most [n] dereferences. *)
Fixpoint reach (n : nat) (h : heap) (v : value) : list loc :=
  match n with
  | O => []
  | S n' =>
      match v with
      | VRef l =>
          match h !! l with
          | Some o => l :: flat_map (reach n' h) (obj_values o)
          | None => []
          end
      | _ => []
      end
  end.

(** [v] is a primitive or a reference to a location from [b] on. *)
Definition val_fresh (b : nat) (v : value) : Prop :=
  match v with
  | VRef l => b <= l
  | _ => True
  end.

(** Objects at locations from [b] on hold only primitives and references
    to locations from [b] on. *)
Definition fresh_from (b : nat) (h : heap) : Prop :=
  forall l o, b <= l -> h !! l = Some o -> Forall (val_fresh b) (obj_values o).

(** *** Specifications of computations *)

(** The computation ends normally in a state that satisfies [Q]. *)
Definition wp {A : Type} (m : M A) (h : heap) (Q : A -> heap -> Prop) : Prop :=
  match m h with
  | Ok a h' => Q a h'
  | _ => False
  end.

(** What a sub-computation promises: the store only grew, the new objects
    point nowhere below [b], the result is a primitive or a new object,
    and it reads back as [a]. *)
Definition post {A : Type} (b : nat) (h : heap) (rd : dec A) (a : A)
  : value -> heap -> Prop :=
  fun r h' =>
    h `prefix_of` h' /\ fresh_from b h' /\ val_fresh b r /\ rd h' r = Some a.

(** What storing a literal promises: the store only grew and the result
    reads back as [a]. *)
Definition stored_as {A : Type} (h : heap) (rd : dec A) (a : A)
  : value -> heap -> Prop :=
  fun r h' => h `prefix_of` h' /\ rd h' r = Some a.

(** A decoder keeps its answer when the store grows. *)
Class Mono {A : Type} (d : dec A) : Prop :=
  mono_dec : forall h h' v a, h `prefix_of` h' -> d h v = Some a -> d h' v = Some a.

(** *** The data file's record in a store of its own *)

Definition stored (d : Types.ResumeData.t) (h0 : heap) : value * heap :=
  match store_ResumeData d h0 with
  | Ok v h => (v, h)
  | _ => (VUndefined, [])
  end.

Definition RESUME_DATA : value := fst (stored Data.RESUME_DATA []).
Definition RESUME_DATA_heap : heap := snd (stored Data.RESUME_DATA []).

(** The data file as it is, with its own [projects]. *)
Definition SHIPPED : outcome value :=
  store_ResumeData_with shipped_projects Data.RESUME_DATA [].

Definition SHIPPED_DATA : value :=
  match SHIPPED with Ok data _ => data | _ => VUndefined end.
Definition SHIPPED_heap : heap :=
  match SHIPPED with Ok _ h => h | _ => [] end.

(** The same record in a store that already holds another object. *)
Definition RESUME_DATA' : value := fst (stored Data.RESUME_DATA [OArray []]).
Definition RESUME_DATA_heap' : heap := snd (stored Data.RESUME_DATA [OArray []]).

End Js.

(** ** The GraphQL engine, as far as the route uses it

    The route hands every request to Apollo Server with the schema that
    type-graphql builds from the decorated classes.  What the engine does
    with a selection is modelled after DOCS/API-REFERENCE.md: the schema
    diagram, the success shape [{ data: { me: ... } }], and the error shape
    with [extensions.code]; a field that the parent type does not have is
    reported as "Cannot query field 'f' on type 'T'." with the code
    [GRAPHQL_VALIDATION_FAILED], and such a response has no [data]. *)

Module GraphQL.

(** Values as the engine sees and answers them. *)
Inductive json : Type :=
| JUndefined
| JNull
| JBool (b : bool)
| JString (s : string)
| JArray (items : list json)
| JObject (fields : list (string * json)).

Fixpoint property (fields : list (string * json)) (k : string) : json :=
  match fields with
  | [] => JUndefined
  | (k', v) :: fields' => if String.eqb k' k then v else property fields' k
  end.

(** *** The objects the resolver returns *)

Definition of_optional {A : Type} (f : A -> json) (o : option A) : json :=
  match o with
  | Some a => f a
  | None => JUndefined
  end.

Definition of_strings (l : list string) : json := JArray (map JString l).

Definition of_Social (s : TypeDefs.Social.t) : json :=
  JObject [("name", JString (TypeDefs.Social.name s));
           ("url", JString (TypeDefs.Social.url s));
           ("navbar", of_optional JBool (TypeDefs.Social.navbar s))].

Definition of_Contact (c : TypeDefs.Contact.t) : json :=
  JObject [("email", JString (TypeDefs.Contact.email c));
           ("tel", JString (TypeDefs.Contact.tel c));
           ("social", JArray (map of_Social (TypeDefs.Contact.social c)))].

Definition of_Education (e : TypeDefs.Education.t) : json :=
  JObject [("school", JString (TypeDefs.Education.school e));
           ("degree", JString (TypeDefs.Education.degree e));
           ("start", JString (TypeDefs.Education.start e));
           ("end", JString (TypeDefs.Education.end_ e));
           ("link", of_optional JString (TypeDefs.Education.link e))].

Definition of_Work (w : TypeDefs.Work.t) : json :=
  JObject [("company", JString (TypeDefs.Work.company w));
           ("title", JString (TypeDefs.Work.title w));
           ("start", JString (TypeDefs.Work.start w));
           ("end", JString (TypeDefs.Work.end_ w));
           ("description", JString (TypeDefs.Work.description w));
           ("link", of_optional JString (TypeDefs.Work.link w));
           ("badges", of_optional of_strings (TypeDefs.Work.badges w))].

Definition of_Link (l : TypeDefs.Link.t) : json :=
  JObject [("type", JString (TypeDefs.Link.type l));
           ("href", JString (TypeDefs.Link.href l))].

Definition of_Project (p : TypeDefs.Project.t) : json :=
  JObject [("title", JString (TypeDefs.Project.title p));
           ("href", of_optional JString (TypeDefs.Project.href p));
           ("dates", JString (TypeDefs.Project.dates p));
           ("active", JBool (TypeDefs.Project.active p));
           ("description", JString (TypeDefs.Project.description p));
           ("technologies", of_strings (TypeDefs.Project.technologies p));
           ("links", JArray (map of_Link (TypeDefs.Project.links p)));
           ("image", of_optional JString (TypeDefs.Project.image p));
           ("video", of_optional JString (TypeDefs.Project.video p))].

Definition of_Me (m : TypeDefs.Me.t) : json :=
  JObject [("name", JString (TypeDefs.Me.name m));
           ("initials", JString (TypeDefs.Me.initials m));
           ("location", JString (TypeDefs.Me.location m));
           ("locationLink", JString (TypeDefs.Me.locationLink m));
           ("about", JString (TypeDefs.Me.about m));
           ("summary", JString (TypeDefs.Me.summary m));
           ("avatarUrl", JString (TypeDefs.Me.avatarUrl m));
           ("personalWebsiteUrl", JString (TypeDefs.Me.personalWebsiteUrl m));
           ("contact", of_Contact (TypeDefs.Me.contact m));
           ("education", JArray (map of_Education (TypeDefs.Me.education m)));
           ("work", JArray (map of_Work (TypeDefs.Me.work m)));
           ("skills", of_strings (TypeDefs.Me.skills m));
           ("projects", JArray (map of_Project (TypeDefs.Me.projects m)))].

(** *** The schema of type-defs.ts *)

Inductive gtype : Type :=
| TString
| TBoolean
| TObject (name : string)
| TList (item : gtype).

Record field : Type := mkField {
  fname : string;
  ftype : gtype;
  nullable : bool
}.

(** [@Field()] and [@Field({ nullable: true })]. *)
Definition Field_ (name : string) (t : gtype) : field := mkField name t false.
Definition Field_nullable (name : string) (t : gtype) : field := mkField name t true.

Definition objectTypes : list (string * list field) :=
  [ ("Social",
       [Field_ "name" TString; Field_ "url" TString;
        Field_nullable "navbar" TBoolean]);
    ("Contact",
       [Field_ "email" TString; Field_ "tel" TString;
        Field_ "social" (TList (TObject "Social"))]);
    ("Work",
       [Field_ "company" TString; Field_ "title" TString;
        Field_ "start" TString; Field_ "end" TString;
        Field_ "description" TString; Field_nullable "link" TString;
        Field_nullable "badges" (TList TString)]);
    ("Education",
       [Field_ "school" TString; Field_ "degree" TString;
        Field_ "start" TString; Field_ "end" TString;
        Field_nullable "link" TString]);
    ("Link", [Field_ "type" TString; Field_ "href" TString]);
    ("Project",
       [Field_ "title" TString; Field_nullable "href" TString;
        Field_ "dates" TString; Field_ "active" TBoolean;
        Field_ "description" TString;
        Field_ "technologies" (TList TString);
        Field_ "links" (TList (TObject "Link"));
        Field_nullable "image" TString; Field_nullable "video" TString]);
    ("Me",
       [Field_ "name" TString; Field_ "initials" TString;
        Field_ "location" TString; Field_ "locationLink" TString;
        Field_ "about" TString; Field_ "summary" TString;
        Field_ "avatarUrl" TString; Field_ "personalWebsiteUrl" TString;
        Field_ "contact" (TObject "Contact");
        Field_ "education" (TList (TObject "Education"));
        Field_ "work" (TList (TObject "Work"));
        Field_ "skills" (TList TString);
        Field_ "projects" (TList (TObject "Project"))]) ].

(** A [@Query] method of a resolver class: its name, what it returns and
    the method itself. *)
Record query : Type := mkQuery {
  qname : string;
  qtype : gtype;
  resolve : unit -> json
}.

(** A [@Resolver] class: its [@Query] methods. *)
Definition ResolverClass : Type := list query.

(** [MeResolver], importing the record [RESUME_DATA]. *)
Definition MeResolver (RESUME_DATA : Types.ResumeData.t) : ResolverClass :=
  [ mkQuery "me" (TObject "Me") (fun _ => of_Me (Resolvers.me RESUME_DATA)) ].

Record Schema : Type := mkSchema {
  types : list (string * list field);
  queries : list query
}.

(** What [buildSchema({ resolvers })] builds when it succeeds: the object
    types, and a [Query] type with the [@Query] methods of the resolvers. *)
Definition buildSchema (resolvers : list ResolverClass) : Schema :=
  let qs := concat resolvers in
  {| types := ("Query", map (fun q => Field_ (qname q) (qtype q)) qs) :: objectTypes;
     queries := qs |}.

Fixpoint lookup_type (ts : list (string * list field)) (name : string)
  : option (list field) :=
  match ts with
  | [] => None
  | (n, fs) :: ts' => if String.eqb n name then Some fs else lookup_type ts' name
  end.

Fixpoint lookup_field (fs : list field) (name : string) : option field :=
  match fs with
  | [] => None
  | f :: fs' => if String.eqb (fname f) name then Some f else lookup_field fs' name
  end.

Definition field_of (schema : Schema) (parent name : string) : option field :=
  match lookup_type (types schema) parent with
  | Some fs => lookup_field fs name
  | None => None
  end.

(** The named type under the list wrappers. *)
Fixpoint named (t : gtype) : gtype :=
  match t with
  | TList t' => named t'
  | _ => t
  end.

(** *** Requests and responses *)

(** A field of a selection set with its own selection set. *)
Inductive selection : Type :=
| Select (name : string) (selections : list selection).

Record error : Type := mkError {
  message : string;
  code : string                   (* extensions.code *)
}.

(** [data = None]: the response has no [data] key. *)
Record response : Type := mkResponse {
  data : option json;
  errors : list error
}.

Definition unknown_field (name parent : string) : error :=
  mkError ("Cannot query field '" +:+ name +:+ "' on type '" +:+ parent +:+ "'.")
          "GRAPHQL_VALIDATION_FAILED".

Definition needs_subfields (name : string) : error :=
  mkError ("Field '" +:+ name +:+ "' must have a selection of subfields.")
          "GRAPHQL_VALIDATION_FAILED".

Definition no_subfields (name : string) : error :=
  mkError ("Field '" +:+ name +:+ "' must not have a selection.")
          "GRAPHQL_VALIDATION_FAILED".

Definition internal_error : error :=
  mkError "Internal server error" "INTERNAL_SERVER_ERROR".

(** *** Validation *)

Fixpoint validate (schema : Schema) (parent : string) (s : selection) : list error :=
  match s with
  | Select name subs =>
      match field_of schema parent name with
      | None => [unknown_field name parent]
      | Some f =>
          match named (ftype f) with
          | TObject n =>
              match subs with
              | [] => [needs_subfields name]
              | _ => flat_map (validate schema n) subs
              end
          | _ =>
              match subs with
              | [] => []
              | _ => [no_subfields name]
              end
          end
      end
  end.

(** *** Execution *)

(** A field's value is the property of that name of the parent's object
    (the default resolver); [None] is a field error. *)
Fixpoint execute (schema : Schema) (parent : string) (source : json) (s : selection)
  : option (string * json) :=
  match s with
  | Select name subs =>
      match field_of schema parent name, source with
      | Some f, JObject fields =>
          r ← (fix complete (t : gtype) (nullable : bool) (v : json) : option json :=
                 match v with
                 | JUndefined | JNull => if nullable then Some JNull else None
                 | _ =>
                     match t, v with
                     | TString, JString x => Some (JString x)
                     | TBoolean, JBool b => Some (JBool b)
                     | TList t', JArray items =>
                         JArray <$> mapM (complete t' false) items
                     | TObject n, JObject _ =>
                         JObject <$> mapM (execute schema n v) subs
                     | _, _ => None
                     end
                 end) (ftype f) (GraphQL.nullable f) (property fields name);
          Some (name, r)
      | _, _ => None
      end
  end.

(** The root value: each query field bound to what its method returns. *)
Definition rootValue (schema : Schema) : json :=
  JObject (map (fun q => (qname q, resolve q tt)) (queries schema)).

(** One request: validation, then execution. *)
Definition executeOperation (schema : Schema) (selections : list selection) : response :=
  match flat_map (validate schema "Query") selections with
  | [] =>
      match mapM (execute schema "Query" (rootValue schema)) selections with
      | Some fields => mkResponse (Some (JObject fields)) []
      | None => mkResponse (Some JNull) [internal_error]
      end
  | errs => mkResponse None errs
  end.

(** *** The requests of the examples *)

Definition root_name (s : selection) : string :=
  match s with
  | Select name _ => name
  end.

Definition fetchProfile_name : list selection :=
  [Select "fetchProfile" [Select "name" []]].

Definition me_name : list selection :=
  [Select "me" [Select "name" []]].

Definition fetchProfile_unknownField : list selection :=
  [Select "fetchProfile" [Select "unknownField" []]].

Definition me_unknownField : list selection :=
  [Select "me" [Select "unknownField" []]].

(** *** Looking into a response *)

Fixpoint own_property (fields : list (string * json)) (k : string) : option json :=
  match fields with
  | [] => None
  | (k', v) :: fields' => if String.eqb k' k then Some v else own_property fields' k
  end.

(** The value under a path of keys, when every key is there. *)
Fixpoint at_path (v : json) (path : list string) : option json :=
  match path with
  | [] => Some v
  | k :: path' =>
      match v with
      | JObject fields =>
          match own_property fields k with
          | Some v' => at_path v' path'
          | None => None
          end
      | _ => None
      end
  end.

(** [data.k1.k2...] of a response. *)
Definition data_at (r : response) (path : list string) : option json :=
  match data r with
  | Some d => at_path d path
  | None => None
  end.

End GraphQL.

(** ** src/app/graphql/route.ts *)

Module Route.
Import GraphQL.

Section Startup.

(** Whether type-graphql's [buildSchema] throws for a list of resolver
    classes is decided outside the repository. *)
Variable throws : list ResolverClass -> bool.

(** The record that resolvers.ts imports. *)
Variable RESUME_DATA : Types.ResumeData.t.

Definition buildSchema (resolvers : list ResolverClass) : option Schema :=
  if throws resolvers then None else Some (GraphQL.buildSchema resolvers).

(** The module after its top-level statements ran: the console, and the
    schema the server was created with; [Failed] when an exception left the
    module. *)
Inductive module : Type :=
| Loaded (console : list string) (schema : Schema)
| Failed (console : list string).

Definition load : module :=
  match buildSchema [MeResolver RESUME_DATA] with
  | Some schema => Loaded [] schema
  | None =>
      let console := ["Failed to build GraphQL schema:"] in
      (* Provide a minimal fallback schema *)
      match buildSchema [] with
      | Some schema => Loaded console schema
      | None => Failed console
      end
  end.

(** [handler(request)]: the server answers with its schema. *)
Definition handler (schema : Schema) (request : list selection) : response :=
  executeOperation schema request.

(** The exported [GET] and [POST]; there is none when the module failed. *)
Definition GET (request : list selection) : option response :=
  match load with
  | Loaded _ schema => Some (handler schema request)
  | Failed _ => None
  end.

Definition POST (request : list selection) : option response :=
  match load with
  | Loaded _ schema => Some (handler schema request)
  | Failed _ => None
  end.

End Startup.

(** No resolver class makes [buildSchema] throw: the process in good health. *)
Definition healthy : list ResolverClass -> bool := fun _ => false.

(** [buildSchema] throws for every list that has a resolver class in it,
    and builds the schema of the empty list. *)
Definition first_build_throws : list ResolverClass -> bool :=
  fun resolvers =>
    match resolvers with
    | [] => false
    | _ :: _ => true
    end.

(** [buildSchema] throws whatever it is given. *)
Definition every_build_throws : list ResolverClass -> bool := fun _ => true.

End Route.

(** ** src/app/page.tsx: the list sections of [Page]

    Markup is kept as a tree of elements with their [key], their [href]
    where they have one, and their children; class names are styling and
    are left out. *)

Module Page.
Import Types.

Inductive Markup : Type :=
| Text (s : string)
| Element (tag : string) (key : option string) (href : option string)
          (children : list Markup).

Definition el (tag : string) (children : list Markup) : Markup :=
  Element tag None None children.

(** A string in a condition: [undefined] and the empty string are falsy. *)
Definition truthy (o : option string) : bool :=
  match o with
  | Some s => negb (String.eqb s "")
  | None => false
  end.

Definition WorkCard (work : Work.t) : Markup :=
  Element "Card" (Some (Work.company work)) None
    [ el "CardHeader"
        [ el "div"
            [ el "h3"
                [ if truthy (Work.link work)
                  then Element "a" None (Work.link work) [Text (Work.company work)]
                  else Text (Work.company work) ];
              el "div" [Text (Work.start work); Text " - "; Text (Work.end_ work)] ];
          el "h4" [Text (Work.title work)] ];
      el "CardContent"
        (Text (Work.description work)
         :: match Work.badges work with
            | Some badges =>
                [ el "div"
                    (map (fun badge => Element "Badge" (Some badge) None [Text badge])
                         badges) ]
            | None => []
            end) ].

Definition WorkExperience (work : list Work.t) : Markup :=
  el "section" (el "h2" [Text "Work Experience"] :: map WorkCard work).

Definition EducationCard (education : Education.t) : Markup :=
  Element "Card" (Some (Education.school education)) None
    [ el "CardHeader"
        [ el "div"
            [ el "h3"
                [ if truthy (Education.link education)
                  then Element "a" None (Education.link education)
                         [Text (Education.school education)]
                  else Text (Education.school education) ];
              el "div" [Text (Education.start education); Text " - ";
                        Text (Education.end_ education)] ] ];
      el "CardContent" [Text (Education.degree education)] ].

Definition EducationSection (education : list Education.t) : Markup :=
  el "section" (el "h2" [Text "Education"] :: map EducationCard education).

Definition SkillBadge (skill : string) : Markup :=
  Element "Badge" (Some skill) None [Text skill].

Definition Skills (skills : list string) : Markup :=
  el "section" [ el "h2" [Text "Skills"]; el "div" (map SkillBadge skills) ].

Definition ProjectCard (project : Project.t) : Markup :=
  Element "Card" (Some (Project.title project)) None
    [ el "CardHeader"
        [ el "div"
            [ el "div"
                [ el "h3"
                    ((if truthy (Project.href project)
                      then Element "a" None (Project.href project)
                             [Text (Project.title project)]
                      else Text (Project.title project))
                     :: (if Project.active project
                         then [ el "span" [ el "span" [el "span" []; el "span" []] ] ]
                         else []));
                  el "div" [Text (Project.dates project)] ];
              el "p" [Text (Project.description project)] ] ];
      el "CardContent"
        [ el "div"
            (map (fun tech => Element "Badge" (Some tech) None [Text tech])
                 (Project.technologies project)) ] ].

Definition Projects (projects : list Project.t) : Markup :=
  el "section" [ el "h2" [Text "Projects"]; el "div" (map ProjectCard projects) ].

(** The four list sections of the page, in page order. *)
Definition sections (data : ResumeData.t) : list Markup :=
  [ WorkExperience (ResumeData.work data);
    EducationSection (ResumeData.education data);
    Skills (ResumeData.skills data);
    Projects (ResumeData.projects data) ].

(** *** Reading the blocks off the markup *)

Definition children (m : Markup) : list Markup :=
  match m with
  | Element _ _ _ cs => cs
  | Text _ => []
  end.

Definition tag (m : Markup) : string :=
  match m with
  | Element t _ _ _ => t
  | Text _ => ""
  end.

Definition key (m : Markup) : option string :=
  match m with
  | Element _ k _ _ => k
  | Text _ => None
  end.

(** The elements with a given tag below [m], in document order. *)
Fixpoint descendants (t : string) (m : Markup) : list Markup :=
  match m with
  | Text _ => []
  | Element _ _ _ cs =>
      (fix go (l : list Markup) : list Markup :=
         match l with
         | [] => []
         | c :: l' =>
             (if String.eqb (tag c) t then [c] else descendants t c) ++ go l'
         end) cs
  end.

(** The child blocks of each section. *)
Definition work_blocks (work : list Work.t) : list Markup :=
  descendants "Card" (WorkExperience work).

Definition education_blocks (education : list Education.t) : list Markup :=
  descendants "Card" (EducationSection education).

Definition skill_blocks (skills : list string) : list Markup :=
  descendants "Badge" (Skills skills).

Definition project_blocks (projects : list Project.t) : list Markup :=
  descendants "Card" (Projects projects).

(** *** The contact block of the header *)

(** A node among the children of an element: strings and numbers are
    text, booleans, [null] and [undefined] render nothing, an element
    renders with its children. *)
Fixpoint of_node (node : ReactNode) : list Markup :=
  match node with
  | RString s => [Text s]
  | RNumber n => [Text (pretty n)]
  | RBoolean _ | RNull | RUndefined => []
  | RElement type props children =>
      [ Element type None
          ((fix find (l : list (string * string)) : option string :=
              match l with
              | [] => None
              | (k, v) :: l' => if String.eqb k "href" then Some v else find l'
              end) props)
          ((fix go (l : list ReactNode) : list Markup :=
              match l with
              | [] => []
              | c :: l' => of_node c ++ go l'
              end) children) ]
  end.

(** "Contact - Desktop": the mail and phone buttons when there is an
    address or a number, then one icon button per social link. *)
Definition ContactLinks (contact : Contact.t) : Markup :=
  el "div"
    ((if truthy (Some (Contact.email contact))
      then [ Element "a" None (Some ("mailto:" +:+ Contact.email contact))
               [ el "button" [ el "span" [Text (Contact.email contact)] ] ] ]
      else [])
     ++ (if truthy (Some (Contact.tel contact))
         then [ Element "a" None (Some ("tel:" +:+ Contact.tel contact))
                  [ el "button" [ el "span" [Text (Contact.tel contact)] ] ] ]
         else [])
     ++ map (fun social =>
               Element "a" (Some (Social.name social)) (Some (Social.url social))
                 [ el "button" (of_node (Social.icon social)) ])
            (Contact.social contact)).

(** "Contact - Print Only". *)
Definition ContactPrint (contact : Contact.t) : Markup :=
  el "div"
    ((if truthy (Some (Contact.email contact))
      then [ el "span" [Text (Contact.email contact)] ]
      else [])
     ++ (if truthy (Some (Contact.tel contact))
         then [ el "span" [Text (Contact.tel contact)] ]
         else [])).

(** *** More ways to read the markup *)

Definition href (m : Markup) : option string :=
  match m with
  | Element _ _ h _ => h
  | Text _ => None
  end.

(** The text runs below [m], in document order. *)
Fixpoint texts (m : Markup) : list string :=
  match m with
  | Text s => [s]
  | Element _ _ _ cs =>
      (fix go (l : list Markup) : list string :=
         match l with
         | [] => []
         | c :: l' => texts c ++ go l'
         end) cs
  end.

End Page.

(** ** src/components/command-menu.tsx *)

Module CommandMenu.

(** What the handlers do to the browser. *)
Inductive effect : Type :=
| preventDefault
| window_print
| window_scrollTo (top : Z) (behavior : string)
| window_open (url target : string).

(** The items of the command list. *)
Inductive item : Type :=
| PrintResume
| ScrollToTop
| GitHub
| LinkedIn.

Inductive event : Type :=
| keydown (key : string) (metaKey ctrlKey : bool)
| click_trigger                       (* the button's onClick *)
| openChange (open : bool)            (* the dialog's onOpenChange *)
| select (i : item).                  (* an item's onSelect *)

(** [useState(false)]: the component's only state. *)
Definition initial : bool := false.

(** The listener that [useEffect] registers on the document. *)
Definition down (key : string) (metaKey ctrlKey : bool) (open : bool)
  : bool * list effect :=
  if String.eqb key "k" && (metaKey || ctrlKey)
  then (negb open, [preventDefault])
  else (open, []).

(** The command of each item. *)
Definition command (i : item) : list effect :=
  match i with
  | PrintResume => [window_print]
  | ScrollToTop => [window_scrollTo 0 "smooth"]
  | GitHub => [window_open "https://github.com/yourname" "_blank"]
  | LinkedIn => [window_open "https://linkedin.com/in/yourname" "_blank"]
  end.

(** [runCommand]: close, then run the command. *)
Definition runCommand (cmd : list effect) (open : bool) : bool * list effect :=
  (false, cmd).

(** What is on the page: the trigger button, and the dialog's overlay with
    the items while [open]. *)
Inductive widget : Type :=
| Trigger
| Overlay (items : list item).

Definition render (open : bool) : list widget :=
  Trigger :: (if open then [Overlay [PrintResume; ScrollToTop; GitHub; LinkedIn]] else []).

Definition is_overlay (w : widget) : bool :=
  match w with
  | Overlay _ => true
  | Trigger => false
  end.

Definition overlays (open : bool) : nat := length (filter is_overlay (render open)).

(** One event: the new state and what was done to the browser; [None]
    when the event's target is not on the page. *)
Definition step (open : bool) (e : event) : option (bool * list effect) :=
  match e with
  | keydown key metaKey ctrlKey => Some (down key metaKey ctrlKey open)
  | click_trigger => Some (true, [])
  | openChange o => if open then Some (o, []) else None
  | select i => if open then Some (runCommand (command i) open) else None
  end.

(** A run of events from a state, with everything done to the browser. *)
Fixpoint run (open : bool) (es : list event) : option (bool * list effect) :=
  match es with
  | [] => Some (open, [])
  | e :: es' =>
      match step open e with
      | Some (open', fx) =>
          match run open' es' with
          | Some (open'', fx') => Some (open'', fx ++ fx')
          | None => None
          end
      | None => None
      end
  end.

(** *** Reading a run of events *)

(** The items selected in a run, in order. *)
Fixpoint selected (es : list event) : list item :=
  match es with
  | [] => []
  | select i :: es' => i :: selected es'
  | _ :: es' => selected es'
  end.

(** A key press of modifier+k. *)
Definition is_mod_k (e : event) : bool :=
  match e with
  | keydown key metaKey ctrlKey => String.eqb key "k" && (metaKey || ctrlKey)
  | _ => false
  end.

(** A key press that is not modifier+k. *)
Definition other_key (e : event) : bool :=
  match e with
  | keydown key metaKey ctrlKey => negb (String.eqb key "k" && (metaKey || ctrlKey))
  | _ => false
  end.

Definition is_preventDefault (fx : effect) : bool :=
  match fx with
  | preventDefault => true
  | _ => false
  end.

(** src/components/print-button.tsx: [handlePrint]. *)
Definition handlePrint : list effect := [window_print].

End CommandMenu.

(** ** The two routes of the app directory

    [src/app/page.tsx] answers "/" and [src/app/graphql/route.ts] answers
    "/graphql"; each is a module of its own, and the page imports nothing
    of the route. *)

Module App.

Inductive answer : Type :=
| Html (sections : list Page.Markup)
| Api (r : GraphQL.response)
| NoHandler                           (* the route module did not load *)
| NotFound.

Definition GET (throws : list GraphQL.ResolverClass -> bool)
    (RESUME_DATA : Types.ResumeData.t) (path : string)
    (request : list GraphQL.selection) : answer :=
  if String.eqb path "/" then Html (Page.sections RESUME_DATA)
  else if String.eqb path "/graphql" then
    match Route.GET throws RESUME_DATA request with
    | Some r => Api r
    | None => NoHandler
    end
  else NotFound.

End App.

(** ** What the projection keeps

    The record with what [resumeDataToGraphQL] does not carry over taken
    out (icons, logos, the content of a summary that is not a string), and
    the record rebuilt from a wire value. *)

Module Wire.
Import Types.

Definition forget_social (s : Social.t) : Social.t :=
  {| Social.name := Social.name s;
     Social.url := Social.url s;
     Social.icon := RUndefined;
     Social.navbar := Social.navbar s |}.

Definition forget_work (w : Work.t) : Work.t :=
  {| Work.company := Work.company w;
     Work.title := Work.title w;
     Work.logo := RUndefined;
     Work.start := Work.start w;
     Work.end_ := Work.end_ w;
     Work.description := Work.description w;
     Work.link := Work.link w;
     Work.badges := Work.badges w |}.

Definition forget_link (l : ProjectLink.t) : ProjectLink.t :=
  {| ProjectLink.type := ProjectLink.type l;
     ProjectLink.href := ProjectLink.href l;
     ProjectLink.icon := RUndefined |}.

Definition forget_project (p : Project.t) : Project.t :=
  {| Project.title := Project.title p;
     Project.href := Project.href p;
     Project.dates := Project.dates p;
     Project.active := Project.active p;
     Project.description := Project.description p;
     Project.technologies := Project.technologies p;
     Project.links := map forget_link (Project.links p);
     Project.image := Project.image p;
     Project.video := Project.video p |}.

Definition forget (d : ResumeData.t) : ResumeData.t :=
  {| ResumeData.name := ResumeData.name d;
     ResumeData.initials := ResumeData.initials d;
     ResumeData.location := ResumeData.location d;
     ResumeData.locationLink := ResumeData.locationLink d;
     ResumeData.about := ResumeData.about d;
     ResumeData.summary :=
       match ResumeData.summary d with
       | RString s => RString s
       | _ => RString "[React Component]"
       end;
     ResumeData.avatarUrl := ResumeData.avatarUrl d;
     ResumeData.personalWebsiteUrl := ResumeData.personalWebsiteUrl d;
     ResumeData.contact :=
       {| Contact.email := Contact.email (ResumeData.contact d);
          Contact.tel := Contact.tel (ResumeData.contact d);
          Contact.social := map forget_social (Contact.social (ResumeData.contact d)) |};
     ResumeData.education := ResumeData.education d;
     ResumeData.work := map forget_work (ResumeData.work d);
     ResumeData.skills := ResumeData.skills d;
     ResumeData.projects := map forget_project (ResumeData.projects d) |}.

(** The record a wire value comes from, icons and logos left undefined. *)
Definition back (m : TypeDefs.Me.t) : ResumeData.t :=
  {| ResumeData.name := TypeDefs.Me.name m;
     ResumeData.initials := TypeDefs.Me.initials m;
     ResumeData.location := TypeDefs.Me.location m;
     ResumeData.locationLink := TypeDefs.Me.locationLink m;
     ResumeData.about := TypeDefs.Me.about m;
     ResumeData.summary := RString (TypeDefs.Me.summary m);
     ResumeData.avatarUrl := TypeDefs.Me.avatarUrl m;
     ResumeData.personalWebsiteUrl := TypeDefs.Me.personalWebsiteUrl m;
     ResumeData.contact :=
       {| Contact.email := TypeDefs.Contact.email (TypeDefs.Me.contact m);
          Contact.tel := TypeDefs.Contact.tel (TypeDefs.Me.contact m);
          Contact.social :=
            map (fun s => {| Social.name := TypeDefs.Social.name s;
                             Social.url := TypeDefs.Social.url s;
                             Social.icon := RUndefined;
                             Social.navbar := TypeDefs.Social.navbar s |})
                (TypeDefs.Contact.social (TypeDefs.Me.contact m)) |};
     ResumeData.education :=
       map (fun e => {| Education.school := TypeDefs.Education.school e;
                        Education.degree := TypeDefs.Education.degree e;
                        Education.start := TypeDefs.Education.start e;
                        Education.end_ := TypeDefs.Education.end_ e;
                        Education.link := TypeDefs.Education.link e |})
           (TypeDefs.Me.education m);
     ResumeData.work :=
       map (fun w => {| Work.company := TypeDefs.Work.company w;
                        Work.title := TypeDefs.Work.title w;
                        Work.logo := RUndefined;
                        Work.start := TypeDefs.Work.start w;
                        Work.end_ := TypeDefs.Work.end_ w;
                        Work.description := TypeDefs.Work.description w;
                        Work.link := TypeDefs.Work.link w;
                        Work.badges := TypeDefs.Work.badges w |})
           (TypeDefs.Me.work m);
     ResumeData.skills := TypeDefs.Me.skills m;
     ResumeData.projects :=
       map (fun p => {| Project.title := TypeDefs.Project.title p;
                        Project.href := TypeDefs.Project.href p;
                        Project.dates := TypeDefs.Project.dates p;
                        Project.active := TypeDefs.Project.active p;
                        Project.description := TypeDefs.Project.description p;
                        Project.technologies := TypeDefs.Project.technologies p;
                        Project.links :=
                          map (fun l => {| ProjectLink.type := TypeDefs.Link.type l;
                                           ProjectLink.href := TypeDefs.Link.href l;
                                           ProjectLink.icon := RUndefined |})
                              (TypeDefs.Project.links p);
                        Project.image := TypeDefs.Project.image p;
                        Project.video := TypeDefs.Project.video p |})
           (TypeDefs.Me.projects m) |}.

End Wire.

(** ** The client helpers of DOCS/API-REFERENCE.md *)

Module Client.
Import GraphQL.

(** [getUserFriendlyError(errors)]; [None] is [null].  A response
    without an [errors] key has the empty list here. *)
Definition getUserFriendlyError (errors : list error) : option string :=
  match errors with
  | [] => None
  | error :: _ =>
      Some (if String.eqb (code error) "GRAPHQL_VALIDATION_FAILED"
            then "Invalid request. Please try again."
            else if String.eqb (code error) "INTERNAL_SERVER_ERROR"
            then "Service temporarily unavailable. Please try again later."
            else "An error occurred. Please try again.")
  end.

(** [v.k]: a TypeError ([None]) on [undefined] and [null]. *)
Definition member (v : json) (k : string) : option json :=
  match v with
  | JUndefined | JNull => None
  | JObject fields => Some (property fields k)
  | _ => Some JUndefined
  end.

(** [v?.k] *)
Definition optional_member (v : json) (k : string) : json :=
  match v with
  | JObject fields => property fields k
  | _ => JUndefined
  end.

Definition typeof_string (v : json) : bool :=
  match v with
  | JString _ => true
  | _ => false
  end.

(** [validateResume(data)]; [None] when it throws. *)
Definition validateResume (data : json) : option bool :=
  match member data "name" with
  | None => None
  | Some name =>
      if typeof_string name
      then match member data "contact" with
           | None => None
           | Some contact => Some (typeof_string (optional_member contact "email"))
           end
      else Some false
  end.

(** The request [me { name contact { email } }]. *)
Definition me_name_email : list selection :=
  [Select "me" [Select "name" []; Select "contact" [Select "email" []]]].

End Client.

(** ** Values that fit a type of the schema *)

Module Conformance.
Import GraphQL.

(** [conforms ts t nullable v]: the value [v] fits the type [t] of the
    object types [ts]; [undefined] and [null] fit a nullable position only,
    and an object fits when each field of its type is fitted by the
    property of that name. *)
Inductive conforms (ts : list (string * list field)) : gtype -> bool -> json -> Prop :=
| conforms_undefined (t : gtype) : conforms ts t true JUndefined
| conforms_null (t : gtype) : conforms ts t true JNull
| conforms_string (nullable : bool) (s : string) :
    conforms ts TString nullable (JString s)
| conforms_boolean (nullable : bool) (b : bool) :
    conforms ts TBoolean nullable (JBool b)
| conforms_list (nullable : bool) (t : gtype) (items : list json) :
    Forall (conforms ts t false) items ->
    conforms ts (TList t) nullable (JArray items)
| conforms_object (nullable : bool) (name : string) (fields : list (string * json))
    (fs : list field) :
    lookup_type ts name = Some fs ->
    (forall f, In f fs ->
       conforms ts (ftype f) (GraphQL.nullable f) (property fields (fname f))) ->
    conforms ts (TObject name) nullable (JObject fields).

End Conformance.

(** * Properties *)

Import Types.

(** ** The wire projection on typed records *)

Lemma Array_from_id {A : Type} (l : list A) : Resolvers.Array_from l = l.
Proof. unfold Resolvers.Array_from. apply map_id. Qed.

Lemma typeof_string_inv (node : ReactNode) :
  typeof node = "string" -> exists s, node = RString s.
Proof. destruct node; simpl; intros H; try discriminate. eauto. Qed.

(** C2. When the summary is a plain string (work descriptions are strings
    by their type), the projection returns the summary and every work
    description as they are. *)
Theorem projection_identity_on_plain_strings (data : ResumeData.t)
    (Hsummary : typeof (ResumeData.summary data) = "string") :
  RString (TypeDefs.Me.summary (Resolvers.resumeDataToGraphQL data))
    = ResumeData.summary data
  /\ map TypeDefs.Work.description
         (TypeDefs.Me.work (Resolvers.resumeDataToGraphQL data))
     = map Work.description (ResumeData.work data).
Proof.
  destruct (typeof_string_inv _ Hsummary) as [s Hs].
  split.
  - simpl. rewrite Hs. reflexivity.
  - simpl. rewrite map_map. reflexivity.
Qed.

Lemma projection_identity_on_plain_strings_witness :
  typeof (ResumeData.summary Data.RESUME_DATA) = "string"
  /\ (RString (TypeDefs.Me.summary (Resolvers.resumeDataToGraphQL Data.RESUME_DATA))
        = ResumeData.summary Data.RESUME_DATA
      /\ map TypeDefs.Work.description
             (TypeDefs.Me.work (Resolvers.resumeDataToGraphQL Data.RESUME_DATA))
         = map Work.description (ResumeData.work Data.RESUME_DATA)).
Proof.
  split; [reflexivity | apply (projection_identity_on_plain_strings Data.RESUME_DATA); reflexivity].
Defined.

(** C9. A summary that is not a plain string is projected to the fixed
    placeholder, and so is every non-string node given to
    [reactNodeToString]: whatever text the node holds is dropped. *)
Theorem rich_summary_becomes_placeholder (data : ResumeData.t) (node : ReactNode)
    (Hsummary : typeof (ResumeData.summary data) <> "string")
    (Hnode : typeof node <> "string") :
  TypeDefs.Me.summary (Resolvers.resumeDataToGraphQL data) = "[React Component]"
  /\ Resolvers.reactNodeToString node = "[React Component]".
Proof.
  split.
  - simpl. destruct (ResumeData.summary data); simpl in *; congruence.
  - destruct node; simpl in *; congruence.
Qed.

Lemma rich_summary_becomes_placeholder_witness :
  typeof (ResumeData.summary Data.RESUME_DATA_rich_summary) <> "string"
  /\ typeof Data.generic_summary <> "string"
  /\ textContent Data.generic_summary = "Senior Product Manager"
  /\ TypeDefs.Me.summary (Resolvers.resumeDataToGraphQL Data.RESUME_DATA_rich_summary)
       = "[React Component]"
  /\ Resolvers.reactNodeToString Data.generic_summary = "[React Component]".
Proof.
  split; [discriminate |].
  split; [discriminate |].
  split; [reflexivity |].
  apply (rich_summary_becomes_placeholder Data.RESUME_DATA_rich_summary
           Data.generic_summary); discriminate.
Defined.

(** ** The command palette *)

Import CommandMenu.

(** C3, as the claim has it, fails: with the palette open, Ctrl+K does not
    leave it open. *)
Lemma mod_k_while_open_is_not_a_noop :
  ~ (exists fx, step true (keydown "k" false true) = Some (true, fx)).
Proof. intros [fx H]. vm_compute in H. discriminate. Qed.

(** C3, amended. The modifier+K combination toggles: pressed while the
    palette is open it closes it, pressed while closed it opens it; and in
    either state the page shows one overlay when open and none when
    closed, never two. *)
Theorem mod_k_toggles_the_palette (open metaKey ctrlKey : bool)
    (Hmod : metaKey || ctrlKey = true) :
  step open (keydown "k" metaKey ctrlKey) = Some (negb open, [preventDefault])
  /\ overlays open = (if open then 1 else 0)
  /\ overlays (negb open) <= 1.
Proof.
  unfold step, down. simpl. rewrite Hmod. simpl.
  destruct open; repeat split; vm_compute; lia.
Qed.

Lemma mod_k_toggles_the_palette_witness :
  false || true = true
  /\ step true (keydown "k" false true) = Some (false, [preventDefault])
  /\ overlays true = 1
  /\ overlays false <= 1.
Proof.
  split; [reflexivity | apply (mod_k_toggles_the_palette true false true); reflexivity].
Defined.

Lemma run_app (open : bool) (es1 es2 : list event) (mid : bool) (fx1 : list effect) :
  run open es1 = Some (mid, fx1) ->
  run open (es1 ++ es2)
  = match run mid es2 with
    | Some (open', fx2) => Some (open', fx1 ++ fx2)
    | None => None
    end.
Proof.
  revert open fx1. induction es1 as [|e es1 IH]; intros open fx1 H; simpl in *.
  - inversion H; subst. destruct (run mid es2) as [[? ?]|]; reflexivity.
  - destruct (step open e) as [[open' fx]|]; [|discriminate].
    destruct (run open' es1) as [[open'' fx']|] eqn:E; [|discriminate].
    inversion H; subst. rewrite (IH _ _ E).
    destruct (run mid es2) as [[? ?]|]; [|reflexivity].
    rewrite app_assoc. reflexivity.
Qed.

(** C8. After any events that leave the palette open, selecting "Print
    Resume" closes it and adds one call of [window.print] to what was done
    to the browser, and nothing else. *)
Theorem select_print_closes_and_prints_once (es : list event) (fx : list effect)
    (Hopen : run initial es = Some (true, fx)) :
  step true (select PrintResume) = Some (false, [window_print])
  /\ run initial (es ++ [select PrintResume]) = Some (false, fx ++ [window_print]).
Proof.
  split; [reflexivity |].
  rewrite (run_app _ _ _ _ _ Hopen). reflexivity.
Qed.

Lemma select_print_closes_and_prints_once_witness :
  run initial [keydown "k" true false] = Some (true, [preventDefault])
  /\ step true (select PrintResume) = Some (false, [window_print])
  /\ run initial ([keydown "k" true false] ++ [select PrintResume])
     = Some (false, [preventDefault] ++ [window_print]).
Proof.
  split; [reflexivity |].
  apply (select_print_closes_and_prints_once [keydown "k" true false] [preventDefault]).
  reflexivity.
Defined.

(** ** The section renderers *)

Lemma descendants_cons (t tg : string) (k h : option string) (c : Page.Markup)
    (cs : list Page.Markup) :
  Page.descendants t (Page.Element tg k h (c :: cs))
  = (if String.eqb (Page.tag c) t then [c] else Page.descendants t c)
      ++ Page.descendants t (Page.Element tg k h cs).
Proof. reflexivity. Qed.

Lemma descendants_all_tagged (t tg : string) (k h : option string)
    (cs : list Page.Markup) :
  Forall (fun c => Page.tag c = t) cs ->
  Page.descendants t (Page.Element tg k h cs) = cs.
Proof.
  induction 1 as [|c cs Hc _ IH]; [reflexivity |].
  rewrite descendants_cons, IH, Hc, String.eqb_refl. reflexivity.
Qed.

Lemma Forall_map_tag {A : Type} (f : A -> Page.Markup) (t : string) (l : list A) :
  (forall a, Page.tag (f a) = t) -> Forall (fun c => Page.tag c = t) (map f l).
Proof. intros H. induction l as [|a l IH]; simpl; constructor; auto. Qed.

Lemma descendants_skip (t tg : string) (k h : option string) (c : Page.Markup)
    (cs : list Page.Markup) :
  String.eqb (Page.tag c) t = false -> Page.descendants t c = [] ->
  Page.descendants t (Page.Element tg k h (c :: cs))
  = Page.descendants t (Page.Element tg k h cs).
Proof. intros Ht Hc. rewrite descendants_cons, Ht, Hc. reflexivity. Qed.

Lemma descendants_into (t tg : string) (k h : option string) (c : Page.Markup) :
  String.eqb (Page.tag c) t = false ->
  Page.descendants t (Page.Element tg k h [c]) = Page.descendants t c.
Proof. intros Ht. rewrite descendants_cons, Ht. simpl. apply app_nil_r. Qed.

Lemma work_blocks_map (work : list Work.t) :
  Page.work_blocks work = map Page.WorkCard work.
Proof.
  unfold Page.work_blocks, Page.WorkExperience, Page.el.
  rewrite descendants_skip by reflexivity.
  apply descendants_all_tagged, Forall_map_tag. reflexivity.
Qed.

Lemma education_blocks_map (education : list Education.t) :
  Page.education_blocks education = map Page.EducationCard education.
Proof.
  unfold Page.education_blocks, Page.EducationSection, Page.el.
  rewrite descendants_skip by reflexivity.
  apply descendants_all_tagged, Forall_map_tag. reflexivity.
Qed.

Lemma skill_blocks_map (skills : list string) :
  Page.skill_blocks skills = map Page.SkillBadge skills.
Proof.
  unfold Page.skill_blocks, Page.Skills, Page.el.
  rewrite descendants_skip by reflexivity.
  rewrite descendants_into by reflexivity.
  apply descendants_all_tagged, Forall_map_tag. reflexivity.
Qed.

Lemma project_blocks_map (projects : list Project.t) :
  Page.project_blocks projects = map Page.ProjectCard projects.
Proof.
  unfold Page.project_blocks, Page.Projects, Page.el.
  rewrite descendants_skip by reflexivity.
  rewrite descendants_into by reflexivity.
  apply descendants_all_tagged, Forall_map_tag. reflexivity.
Qed.

(** C4. Each list section renders one block per entry of its list, the
    i-th block being the rendering of the i-th entry (so the blocks carry
    the entries' keys in input order), and an empty list gives a section
    with no block. *)
Theorem sections_render_one_block_per_entry
    (work : list Work.t) (education : list Education.t)
    (skills : list string) (projects : list Project.t) :
  (length (Page.work_blocks work) = length work
   /\ (forall i, Page.work_blocks work !! i = Page.WorkCard <$> work !! i)
   /\ map Page.key (Page.work_blocks work) = map (fun w => Some (Work.company w)) work)
  /\ (length (Page.education_blocks education) = length education
      /\ (forall i, Page.education_blocks education !! i
                    = Page.EducationCard <$> education !! i)
      /\ map Page.key (Page.education_blocks education)
         = map (fun e => Some (Education.school e)) education)
  /\ (length (Page.skill_blocks skills) = length skills
      /\ (forall i, Page.skill_blocks skills !! i = Page.SkillBadge <$> skills !! i)
      /\ map Page.key (Page.skill_blocks skills) = map Some skills)
  /\ (length (Page.project_blocks projects) = length projects
      /\ (forall i, Page.project_blocks projects !! i
                    = Page.ProjectCard <$> projects !! i)
      /\ map Page.key (Page.project_blocks projects)
         = map (fun p => Some (Project.title p)) projects)
  /\ Page.work_blocks [] = [] /\ Page.education_blocks [] = []
  /\ Page.skill_blocks [] = [] /\ Page.project_blocks [] = [].
Proof.
  rewrite work_blocks_map, education_blocks_map, skill_blocks_map, project_blocks_map.
  rewrite !length_map, !map_map. simpl.
  repeat split; try reflexivity; intros i; apply list_lookup_fmap.
Qed.

(** ** The Read API *)

Import GraphQL.

(** C1, as the claim has it, fails: the schema has no root field
    [fetchProfile], and the answer to [fetchProfile { name }] is a
    validation error without data, not the success shape. *)
Lemma fetchProfile_is_not_a_root_field :
  Route.POST Route.healthy Data.RESUME_DATA fetchProfile_name
  <> Some (mkResponse
             (Some (JObject [("fetchProfile", JObject [("name", JString "Ban Nguyen")])]))
             []).
Proof. vm_compute. discriminate. Qed.

(** C1, amended. The root query is [me]: when the schema was built, the
    selection [me { name }] against a record named "Ban Nguyen" is answered
    with the data [{ me: { name: "Ban Nguyen" } }] and no errors, on GET and
    on POST. *)
Theorem me_name_returns_the_name (throws : list ResolverClass -> bool)
    (RESUME_DATA : ResumeData.t)
    (Hbuilt : throws [MeResolver RESUME_DATA] = false)
    (Hname : ResumeData.name RESUME_DATA = "Ban Nguyen") :
  Route.POST throws RESUME_DATA me_name
  = Some (mkResponse (Some (JObject [("me", JObject [("name", JString "Ban Nguyen")])])) [])
  /\ Route.GET throws RESUME_DATA me_name
     = Some (mkResponse (Some (JObject [("me", JObject [("name", JString "Ban Nguyen")])])) []).
Proof.
  unfold Route.POST, Route.GET, Route.load, Route.buildSchema. rewrite Hbuilt.
  unfold Route.handler, executeOperation. cbn. rewrite Hname. split; reflexivity.
Qed.

Lemma me_name_returns_the_name_witness :
  Route.healthy [MeResolver Data.RESUME_DATA] = false
  /\ ResumeData.name Data.RESUME_DATA = "Ban Nguyen"
  /\ Route.POST Route.healthy Data.RESUME_DATA me_name
     = Some (mkResponse (Some (JObject [("me", JObject [("name", JString "Ban Nguyen")])])) [])
  /\ Route.GET Route.healthy Data.RESUME_DATA me_name
     = Some (mkResponse (Some (JObject [("me", JObject [("name", JString "Ban Nguyen")])])) []).
Proof.
  split; [reflexivity |]. split; [reflexivity |].
  apply (me_name_returns_the_name Route.healthy Data.RESUME_DATA); reflexivity.
Defined.

(** C5. When the schema was built, [fetchProfile { unknownField }] is
    answered with one error whose code is GRAPHQL_VALIDATION_FAILED and
    with no data, so there is no [data.fetchProfile.unknownField]; the same
    holds for [me { unknownField }], where the field rejected is
    [unknownField] on [Me]. *)
Theorem unknown_field_is_a_validation_error (throws : list ResolverClass -> bool)
    (RESUME_DATA : ResumeData.t)
    (Hbuilt : throws [MeResolver RESUME_DATA] = false) :
  exists r r',
    Route.POST throws RESUME_DATA fetchProfile_unknownField = Some r
    /\ map code (errors r) = ["GRAPHQL_VALIDATION_FAILED"]
    /\ data r = None
    /\ data_at r ["fetchProfile"; "unknownField"] = None
    /\ Route.POST throws RESUME_DATA me_unknownField = Some r'
    /\ errors r' = [unknown_field "unknownField" "Me"]
    /\ map code (errors r') = ["GRAPHQL_VALIDATION_FAILED"]
    /\ data r' = None
    /\ data_at r' ["me"; "unknownField"] = None.
Proof.
  unfold Route.POST, Route.load, Route.buildSchema. rewrite Hbuilt.
  unfold Route.handler, executeOperation. cbn.
  eexists _, _. repeat split; reflexivity.
Qed.

Lemma unknown_field_is_a_validation_error_witness :
  Route.healthy [MeResolver Data.RESUME_DATA] = false
  /\ exists r r',
       Route.POST Route.healthy Data.RESUME_DATA fetchProfile_unknownField = Some r
       /\ map code (errors r) = ["GRAPHQL_VALIDATION_FAILED"]
       /\ data r = None
       /\ data_at r ["fetchProfile"; "unknownField"] = None
       /\ Route.POST Route.healthy Data.RESUME_DATA me_unknownField = Some r'
       /\ errors r' = [unknown_field "unknownField" "Me"]
       /\ map code (errors r') = ["GRAPHQL_VALIDATION_FAILED"]
       /\ data r' = None
       /\ data_at r' ["me"; "unknownField"] = None.
Proof.
  split; [reflexivity |].
  apply (unknown_field_is_a_validation_error Route.healthy Data.RESUME_DATA). reflexivity.
Defined.

(** ** Schema construction failing at startup *)

Lemma validate_without_queries (name : string) (subs : list selection) :
  validate (GraphQL.buildSchema []) "Query" (Select name subs)
  = [unknown_field name "Query"].
Proof. reflexivity. Qed.

Lemma validate_all_without_queries (request : list selection) :
  flat_map (validate (GraphQL.buildSchema []) "Query") request
  = map (fun s => unknown_field (root_name s) "Query") request.
Proof.
  induction request as [|[name subs] request IH]; [reflexivity |].
  cbn [flat_map map root_name]. rewrite validate_without_queries, IH. reflexivity.
Qed.

Lemma executeOperation_without_queries (request : list selection) :
  request <> [] ->
  executeOperation (GraphQL.buildSchema []) request
  = mkResponse None (map (fun s => unknown_field (root_name s) "Query") request).
Proof.
  intros Hne. unfold executeOperation. rewrite validate_all_without_queries.
  destruct request as [|s request]; [congruence | reflexivity].
Qed.




(** ** The resolver over the store *)

Module JsFacts.
Import Js.

Lemma wp_ret {A : Type} (a : A) (h : heap) (Q : A -> heap -> Prop) :
  Q a h -> wp (ret a) h Q.
Proof. exact (fun H => H). Qed.

Lemma wp_bind {A B : Type} (m : M A) (k : A -> M B) (h : heap) (Q : B -> heap -> Prop) :
  wp m h (fun a h' => wp (k a) h' Q) -> wp (bind m k) h Q.
Proof. unfold wp, bind. destruct (m h); auto. Qed.

Lemma wp_mono {A : Type} (m : M A) (h : heap) (Q Q' : A -> heap -> Prop) :
  wp m h Q -> (forall a h', Q a h' -> Q' a h') -> wp m h Q'.
Proof. unfold wp. destruct (m h); auto. Qed.

Lemma wp_get (v : value) (k : string) (h : heap) (ps : list (string * value))
    (Q : value -> heap -> Prop) :
  read_object h v = Some ps -> Q (prop ps k) h -> wp (get v k) h Q.
Proof.
  unfold read_object, wp, get. destruct v; try discriminate.
  destruct (h !! l) as [[| |]|]; try discriminate. intros [= ->]. auto.
Qed.

Lemma wp_alloc (o : object) (h : heap) (Q : value -> heap -> Prop) :
  Q (VRef (length h)) (h ++ [o]) -> wp (alloc o) h Q.
Proof. exact (fun H => H). Qed.

Lemma lookup_alloc (h : heap) (o : object) : (h ++ [o]) !! length h = Some o.
Proof. rewrite lookup_app_r by lia. rewrite Nat.sub_diag. reflexivity. Qed.

Lemma prefix_alloc (h : heap) (o : object) : h `prefix_of` h ++ [o].
Proof. apply prefix_app_r. reflexivity. Qed.

Lemma fresh_from_alloc (b : nat) (h : heap) (o : object) :
  fresh_from b h -> Forall (val_fresh b) (obj_values o) -> fresh_from b (h ++ [o]).
Proof.
  intros Hh Ho l o' Hl Hlook.
  destruct (decide (l < length h)) as [Hlt|Hge].
  - rewrite lookup_app_l in Hlook by exact Hlt. eauto.
  - assert (l = length h) as ->.
    { apply lookup_lt_Some in Hlook. rewrite length_app in Hlook. simpl in Hlook. lia. }
    rewrite lookup_alloc in Hlook. congruence.
Qed.

Lemma fresh_from_base (h : heap) : fresh_from (length h) h.
Proof. intros l o Hl Hlook. apply lookup_lt_Some in Hlook. lia. Qed.

(** *** Decoders and growth of the store *)

Lemma mono_string : Mono read_string.
Proof. intros h h' v a _ H. exact H. Qed.
#[export] Hint Resolve mono_string : typeclass_instances.

Lemma mono_boolean : Mono read_boolean.
Proof. intros h h' v a _ H. exact H. Qed.
#[export] Hint Resolve mono_boolean : typeclass_instances.

Lemma mono_object : Mono read_object.
Proof.
  intros h h' v a Hp. unfold read_object. destruct v; try discriminate.
  destruct (h !! l) as [o|] eqn:E; [|discriminate].
  rewrite (prefix_lookup_Some _ _ _ _ E Hp). auto.
Qed.
#[export] Hint Resolve mono_object : typeclass_instances.

Lemma mono_node : Mono read_node.
Proof.
  intros h h' v a Hp. unfold read_node. destruct v; auto.
  destruct (h !! l) as [o|] eqn:E; [|discriminate].
  rewrite (prefix_lookup_Some _ _ _ _ E Hp). auto.
Qed.
#[export] Hint Resolve mono_node : typeclass_instances.

Lemma mono_optional {A : Type} (d : dec A) `{!Mono d} : Mono (read_optional d).
Proof.
  intros h h' v a Hp. unfold read_optional. destruct v; auto;
    intros H; apply fmap_Some in H as (x & Hx & ->);
    rewrite (mono_dec _ _ _ _ Hp Hx); reflexivity.
Qed.
#[export] Hint Resolve mono_optional : typeclass_instances.

Lemma mono_array {A : Type} (d : dec A) `{!Mono d} : Mono (read_array d).
Proof.
  intros h h' v a Hp. unfold read_array. destruct v; try discriminate.
  destruct (h !! l) as [o|] eqn:E; [|discriminate].
  rewrite (prefix_lookup_Some _ _ _ _ E Hp). destruct o; try discriminate.
  rewrite !mapM_Some. intros H. eapply Forall2_impl; [exact H |].
  intros x y. apply mono_dec, Hp.
Qed.
#[export] Hint Resolve mono_array : typeclass_instances.

(** A step of a record decoder: the property read and decoded before the
    store grew is read and decoded after. *)
Ltac mono_step Hp H :=
  let x := fresh "x" in
  let Hx := fresh "Hx" in
  apply bind_Some in H as (x & Hx & H);
  rewrite (mono_dec _ _ _ _ Hp Hx); cbn [mbind option_bind].

Ltac mono_record :=
  let h := fresh "h" in let h' := fresh "h'" in let v := fresh "v" in
  let a := fresh "a" in let Hp := fresh "Hp" in let H := fresh "H" in
  intros h h' v a Hp H;
  repeat mono_step Hp H; exact H.

Lemma mono_Social : Mono read_Social.
Proof. unfold read_Social. mono_record. Qed.
#[export] Hint Resolve mono_Social : typeclass_instances.

Lemma mono_Contact : Mono read_Contact.
Proof. unfold read_Contact. mono_record. Qed.
#[export] Hint Resolve mono_Contact : typeclass_instances.

Lemma mono_Work : Mono read_Work.
Proof. unfold read_Work. mono_record. Qed.
#[export] Hint Resolve mono_Work : typeclass_instances.

Lemma mono_Education : Mono read_Education.
Proof. unfold read_Education. mono_record. Qed.
#[export] Hint Resolve mono_Education : typeclass_instances.

Lemma mono_ProjectLink : Mono read_ProjectLink.
Proof. unfold read_ProjectLink. mono_record. Qed.
#[export] Hint Resolve mono_ProjectLink : typeclass_instances.

Lemma mono_Project : Mono read_Project.
Proof. unfold read_Project. mono_record. Qed.
#[export] Hint Resolve mono_Project : typeclass_instances.

Lemma mono_ResumeData : Mono read_ResumeData.
Proof. unfold read_ResumeData. mono_record. Qed.
#[export] Hint Resolve mono_ResumeData : typeclass_instances.

Lemma mono_GSocial : Mono read_GSocial.
Proof. unfold read_GSocial. mono_record. Qed.
#[export] Hint Resolve mono_GSocial : typeclass_instances.

Lemma mono_GContact : Mono read_GContact.
Proof. unfold read_GContact. mono_record. Qed.
#[export] Hint Resolve mono_GContact : typeclass_instances.

Lemma mono_GWork : Mono read_GWork.
Proof. unfold read_GWork. mono_record. Qed.
#[export] Hint Resolve mono_GWork : typeclass_instances.

Lemma mono_GEducation : Mono read_GEducation.
Proof. unfold read_GEducation. mono_record. Qed.
#[export] Hint Resolve mono_GEducation : typeclass_instances.

Lemma mono_GLink : Mono read_GLink.
Proof. unfold read_GLink. mono_record. Qed.
#[export] Hint Resolve mono_GLink : typeclass_instances.

Lemma mono_GProject : Mono read_GProject.
Proof. unfold read_GProject. mono_record. Qed.
#[export] Hint Resolve mono_GProject : typeclass_instances.

Lemma mono_Me : Mono read_Me.
Proof. unfold read_Me. mono_record. Qed.
#[export] Hint Resolve mono_Me : typeclass_instances.

(** *** What a decoded primitive was *)

Lemma read_string_inv (h : heap) (v : value) (s : string) :
  read_string h v = Some s -> v = VString s.
Proof. destruct v; simpl; congruence. Qed.

Lemma read_boolean_inv (h : heap) (v : value) (b : bool) :
  read_boolean h v = Some b -> v = VBoolean b.
Proof. destruct v; simpl; congruence. Qed.

Lemma read_optional_string_inv (h : heap) (v : value) (o : option string) :
  read_optional read_string h v = Some o ->
  v = match o with Some s => VString s | None => VUndefined end.
Proof. destruct v; cbn; intros H; try discriminate; by inversion H. Qed.

Lemma read_optional_boolean_inv (h : heap) (v : value) (o : option bool) :
  read_optional read_boolean h v = Some o ->
  v = match o with Some b => VBoolean b | None => VUndefined end.
Proof. destruct v; cbn; intros H; try discriminate; by inversion H. Qed.

Lemma read_strings_fresh (b : nat) (h : heap) (elems : list value) (xs : list string) :
  mapM (read_string h) elems = Some xs -> Forall (val_fresh b) elems.
Proof.
  rewrite mapM_Some. induction 1 as [|v s elems xs Hv _ IH]; constructor; auto.
  apply read_string_inv in Hv as ->. exact I.
Qed.

(** *** Arrays *)

Lemma wp_Array_from (b : nat) (h : heap) (v : value) (xs : list string) :
  b <= length h -> fresh_from b h ->
  read_array read_string h v = Some xs ->
  wp (Js.Array_from v) h (post b h (read_array read_string) xs).
Proof.
  intros Hb Hfresh Hrd. unfold read_array in Hrd. destruct v; try discriminate.
  unfold wp, Js.Array_from.
  destruct (h !! l) as [[elems| |]|] eqn:E; try discriminate.
  unfold alloc, post. split; [apply prefix_alloc |].
  split; [apply fresh_from_alloc; [exact Hfresh | exact (read_strings_fresh _ _ _ _ Hrd)] |].
  split; [exact Hb |].
  unfold read_array. rewrite lookup_alloc.
  apply mapM_Some. apply mapM_Some in Hrd.
  eapply Forall2_impl; [exact Hrd |]. auto.
Qed.

Lemma wp_each {A B : Type} (rdA : dec A) (rdB : dec B) `{!Mono rdA} `{!Mono rdB}
    (f : value -> M value) (g : A -> B) (b : nat) (h0 : heap) :
  (forall h1 x a, h0 `prefix_of` h1 -> b <= length h1 -> fresh_from b h1 ->
     rdA h1 x = Some a -> wp (f x) h1 (post b h1 rdB (g a))) ->
  forall elems xs h,
    h0 `prefix_of` h -> b <= length h -> fresh_from b h ->
    Forall2 (fun x a => rdA h x = Some a) elems xs ->
    wp (each f elems) h
       (fun ys h' => h `prefix_of` h' /\ fresh_from b h'
                     /\ Forall (val_fresh b) ys
                     /\ Forall2 (fun y c => rdB h' y = Some c) ys (map g xs)).
Proof.
  intros Hf elems. induction elems as [|x elems IH]; intros xs h H0 Hb Hfresh Hrd.
  - apply Forall2_nil_inv_l in Hrd as ->. apply wp_ret.
    split; [reflexivity |]. split; [exact Hfresh |]. split; constructor.
  - apply Forall2_cons_inv_l in Hrd as (a & xs' & Ha & Hxs & ->).
    cbn [each]. apply wp_bind.
    eapply wp_mono; [exact (Hf h x a H0 Hb Hfresh Ha) |].
    intros y h1 (Hp1 & Hf1 & Hv1 & Hr1). apply wp_bind.
    assert (b <= length h1) as Hb1 by (apply prefix_length in Hp1; lia).
    eapply wp_mono.
    { apply (IH xs' h1); [by etrans | exact Hb1 | exact Hf1 |].
      eapply Forall2_impl; [exact Hxs |]. intros ? ?. apply mono_dec, Hp1. }
    intros ys h2 (Hp2 & Hf2 & Hvs & Hrs). apply wp_ret.
    split; [by etrans |]. split; [exact Hf2 |].
    split; [constructor; auto |].
    cbn [map]. constructor; [| exact Hrs]. exact (mono_dec _ _ _ _ Hp2 Hr1).
Qed.

Lemma wp_Array_map {A B : Type} (rdA : dec A) (rdB : dec B) `{!Mono rdA} `{!Mono rdB}
    (f : value -> M value) (g : A -> B) (b : nat) (h : heap) (v : value)
    (xs : list A) :
  b <= length h -> fresh_from b h ->
  read_array rdA h v = Some xs ->
  (forall h1 x a, h `prefix_of` h1 -> b <= length h1 -> fresh_from b h1 ->
     rdA h1 x = Some a -> wp (f x) h1 (post b h1 rdB (g a))) ->
  wp (Array_map v f) h (post b h (read_array rdB) (map g xs)).
Proof.
  intros Hb Hfresh Hrd Hf. unfold read_array in Hrd. destruct v; try discriminate.
  unfold wp, Array_map.
  destruct (h !! l) as [[elems| |]|] eqn:E; try discriminate.
  apply mapM_Some in Hrd.
  change (wp (bind (each f elems) (fun ys => alloc (OArray ys))) h
             (post b h (read_array rdB) (map g xs))).
  apply wp_bind.
  eapply wp_mono;
    [exact (wp_each rdA rdB f g b h Hf elems xs h (reflexivity _) Hb Hfresh Hrd) |].
  intros ys h' (Hp & Hf' & Hvs & Hrs). apply wp_alloc.
  split; [etrans; [exact Hp | apply prefix_alloc] |].
  split; [apply fresh_from_alloc; assumption |].
  split; [apply prefix_length in Hp; simpl; lia |].
  unfold read_array. rewrite lookup_alloc. apply mapM_Some.
  eapply Forall2_impl; [exact Hrs |]. intros ? ?. apply mono_dec, prefix_alloc.
Qed.

(** *** The arrow functions *)

(** Take a record decoder's equation apart, one property at a time. *)
Ltac decode H :=
  repeat (let x := fresh "x" in
          let Hx := fresh "Hx" in
          apply bind_Some in H as (x & Hx & H));
  injection H as <-.

(** What the decoded primitives were, as equations on the properties. *)
Ltac primitives :=
  repeat match goal with
         | H : read_string _ _ = Some _ |- _ => apply read_string_inv in H
         | H : read_boolean _ _ = Some _ |- _ => apply read_boolean_inv in H
         | H : read_optional read_string _ _ = Some _ |- _ =>
             apply read_optional_string_inv in H
         | H : read_optional read_boolean _ _ = Some _ |- _ =>
             apply read_optional_boolean_inv in H
         end.

(** The property reads at the head of the computation. *)
Ltac gets :=
  repeat match goal with
         | Hps : read_object ?h ?v = Some _ |- wp (bind (get ?v _) _) ?h _ =>
             apply wp_bind; eapply wp_get; [exact Hps | cbv beta]
         | Hps : read_object ?h ?v = Some _ |- wp (get ?v _) ?h _ =>
             eapply wp_get; [exact Hps | cbv beta]
         end.

Ltac rewrite_props :=
  repeat match goal with
         | H : prop _ _ = _ |- _ => rewrite H
         end.

Ltac case_options :=
  repeat match goal with
         | o : option _ |- _ => destruct o
         end.

Lemma wp_social_arrow (b : nat) (h : heap) (x : value) (a : Social.t) :
  b <= length h -> fresh_from b h -> read_Social h x = Some a ->
  wp (Js.social_arrow x) h (post b h read_GSocial (Resolvers.social_arrow a)).
Proof.
  intros Hb Hfresh H. unfold read_Social in H. decode H. primitives.
  unfold Js.social_arrow. gets. apply wp_alloc. rewrite_props.
  split; [apply prefix_alloc |].
  split; [apply fresh_from_alloc; [exact Hfresh | case_options; repeat constructor] |].
  split; [exact Hb |].
  unfold read_GSocial, read_object. rewrite lookup_alloc.
  case_options; reflexivity.
Qed.

Lemma wp_education_arrow (b : nat) (h : heap) (x : value) (a : Education.t) :
  b <= length h -> fresh_from b h -> read_Education h x = Some a ->
  wp (Js.education_arrow x) h (post b h read_GEducation (Resolvers.education_arrow a)).
Proof.
  intros Hb Hfresh H. unfold read_Education in H. decode H. primitives.
  unfold Js.education_arrow. gets. apply wp_alloc. rewrite_props.
  split; [apply prefix_alloc |].
  split; [apply fresh_from_alloc; [exact Hfresh | case_options; repeat constructor] |].
  split; [exact Hb |].
  unfold read_GEducation, read_object. rewrite lookup_alloc.
  case_options; reflexivity.
Qed.

Lemma wp_link_arrow (b : nat) (h : heap) (x : value) (a : ProjectLink.t) :
  b <= length h -> fresh_from b h -> read_ProjectLink h x = Some a ->
  wp (Js.link_arrow x) h (post b h read_GLink (Resolvers.link_arrow a)).
Proof.
  intros Hb Hfresh H. unfold read_ProjectLink in H. decode H. primitives.
  unfold Js.link_arrow. gets. apply wp_alloc. rewrite_props.
  split; [apply prefix_alloc |].
  split; [apply fresh_from_alloc; [exact Hfresh | repeat constructor] |].
  split; [exact Hb |].
  unfold read_GLink, read_object. rewrite lookup_alloc. reflexivity.
Qed.

Lemma read_optional_strings_inv (h : heap) (v : value) (o : option (list string)) :
  read_optional (read_array read_string) h v = Some o ->
  (v = VUndefined /\ o = None)
  \/ (exists l xs, v = VRef l /\ o = Some xs /\ read_array read_string h v = Some xs).
Proof.
  destruct v; cbn; intros H; try discriminate.
  - left. by inversion H.
  - right. apply fmap_Some in H as (xs & Hxs & ->). eauto.
Qed.

Lemma read_optional_array {A : Type} (d : dec A) (h : heap) (v : value) (xs : list A) :
  read_array d h v = Some xs -> read_optional (read_array d) h v = Some (Some xs).
Proof. destruct v; try discriminate. cbn. by intros ->. Qed.

Lemma wp_badges (b : nat) (h : heap) (w : value) (ps : list (string * value))
    (o : option (list string)) :
  b <= length h -> fresh_from b h -> read_object h w = Some ps ->
  read_optional (read_array read_string) h (prop ps "badges") = Some o ->
  wp (let* x := get w "badges" in
      if truthy x then (let* x' := get w "badges" in Js.Array_from x')
      else ret VUndefined) h
     (post b h (read_optional (read_array read_string))
        (match o with
         | Some badges => Some (Resolvers.Array_from badges)
         | None => None
         end)).
Proof.
  intros Hb Hfresh Hps H. gets.
  apply read_optional_strings_inv in H as [[Hv ->] | (l & xs & Hv & -> & Hxs)].
  - rewrite Hv. cbn [truthy]. apply wp_ret. split; [reflexivity |]. by repeat split.
  - rewrite Hv. cbn [truthy]. gets. rewrite Array_from_id.
    eapply wp_mono; [exact (wp_Array_from b h _ xs Hb Hfresh Hxs) |].
    intros r h' (Hp & Hf & Hv' & Hr). repeat split; try assumption.
    by apply read_optional_array.
Qed.

(** After a sub-computation: every decoding known of the old store holds
    of the new one, and so do the bounds. *)
Ltac lift Hp :=
  match type of Hp with
  | ?h `prefix_of` ?h' =>
      repeat match goal with
             | H : _ h _ = Some _ |- _ => apply (mono_dec _ _ _ _ Hp) in H
             | H : _ <= length h |- _ =>
                 apply (fun H' => Nat.le_trans _ _ _ H' (prefix_length _ _ Hp)) in H
             | H : _ `prefix_of` h |- _ =>
                 apply (fun H' => transitivity H' Hp) in H
             end
  end.

(** Keep the store the computation started from apart from the current one. *)
Ltac based h :=
  let H0 := fresh "H0" in
  let h0 := fresh "h0" in
  assert (H0 : h `prefix_of` h) by reflexivity;
  revert H0; generalize h at 1 4; intros h0 H0.

(** Run a sub-computation whose specification is [lem], and move on to
    the store it leaves. *)
Ltac sub_here lem :=
  let r := fresh "r" in let h' := fresh "h'" in
  let Hp := fresh "Hp" in let Hf := fresh "Hf" in
  let Hv := fresh "Hv" in let Hr := fresh "Hr" in
  eapply wp_mono; [eapply lem; eassumption |];
  intros r h' (Hp & Hf & Hv & Hr); lift Hp;
  match type of Hp with ?h `prefix_of` _ => clear dependent h end.

Ltac sub lem := apply wp_bind; sub_here lem.

(** The object literal at the end of a computation. *)
Ltac literal rd :=
  apply wp_alloc; rewrite_props;
  repeat match goal with
         | H : ?r = VString _ |- _ => is_var r; subst r
         end;
  match goal with
  | |- post _ _ _ _ _ (?h' ++ [?o]) =>
      let Hp := fresh "Hp" in
      pose proof (prefix_alloc h' o) as Hp;
      split; [etrans; [eassumption | exact Hp] |];
      split; [apply fresh_from_alloc;
              [assumption | case_options; repeat constructor; assumption] |];
      split; [assumption |];
      lift Hp;
      unfold rd, read_object; rewrite lookup_alloc;
      cbn [mbind option_bind prop String.eqb Ascii.eqb Bool.eqb];
      repeat match goal with
             | H : _ (h' ++ [o]) _ = Some _ |- _ => rewrite H
             end;
      case_options; reflexivity
  end.

Lemma wp_work_arrow (b : nat) (h : heap) (x : value) (a : Work.t) :
  b <= length h -> fresh_from b h -> read_Work h x = Some a ->
  wp (Js.work_arrow x) h (post b h read_GWork (Resolvers.work_arrow a)).
Proof.
  intros Hb Hfresh H. unfold read_Work in H. decode H.
  based h. unfold Js.work_arrow. gets. sub wp_badges. primitives.
  literal read_GWork.
Qed.

Lemma wp_technologies (b : nat) (h : heap) (p : value) (ps : list (string * value))
    (xs : list string) :
  b <= length h -> fresh_from b h -> read_object h p = Some ps ->
  read_array read_string h (prop ps "technologies") = Some xs ->
  wp (let* t := get p "technologies" in Js.Array_from t) h
     (post b h (read_array read_string) (Resolvers.Array_from xs)).
Proof.
  intros Hb Hfresh Hps H. gets. rewrite Array_from_id. by apply wp_Array_from.
Qed.

Lemma wp_links (b : nat) (h : heap) (p : value) (ps : list (string * value))
    (xs : list ProjectLink.t) :
  b <= length h -> fresh_from b h -> read_object h p = Some ps ->
  read_array read_ProjectLink h (prop ps "links") = Some xs ->
  wp (let* links := get p "links" in Array_map links Js.link_arrow) h
     (post b h (read_array read_GLink) (map Resolvers.link_arrow xs)).
Proof.
  intros Hb Hfresh Hps H. gets.
  apply (wp_Array_map read_ProjectLink read_GLink); try assumption.
  intros h1 x a _. apply wp_link_arrow.
Qed.

Lemma wp_project_arrow (b : nat) (h : heap) (x : value) (a : Project.t) :
  b <= length h -> fresh_from b h -> read_Project h x = Some a ->
  wp (Js.project_arrow x) h (post b h read_GProject (Resolvers.project_arrow a)).
Proof.
  intros Hb Hfresh H. unfold read_Project in H. decode H.
  based h. unfold Js.project_arrow. gets.
  sub wp_technologies. sub wp_links. gets. primitives.
  literal read_GProject.
Qed.

(** *** The arrays that are mapped *)

Lemma wp_socials (b : nat) (h : heap) (v : value) (xs : list Social.t) :
  b <= length h -> fresh_from b h -> read_array read_Social h v = Some xs ->
  wp (Array_map v Js.social_arrow) h
     (post b h (read_array read_GSocial) (map Resolvers.social_arrow xs)).
Proof.
  intros Hb Hfresh H. apply (wp_Array_map read_Social read_GSocial); try assumption.
  intros h1 x a _. apply wp_social_arrow.
Qed.

Lemma wp_educations (b : nat) (h : heap) (v : value) (xs : list Education.t) :
  b <= length h -> fresh_from b h -> read_array read_Education h v = Some xs ->
  wp (Array_map v Js.education_arrow) h
     (post b h (read_array read_GEducation) (map Resolvers.education_arrow xs)).
Proof.
  intros Hb Hfresh H. apply (wp_Array_map read_Education read_GEducation); try assumption.
  intros h1 x a _. apply wp_education_arrow.
Qed.

Lemma wp_works (b : nat) (h : heap) (v : value) (xs : list Work.t) :
  b <= length h -> fresh_from b h -> read_array read_Work h v = Some xs ->
  wp (Array_map v Js.work_arrow) h
     (post b h (read_array read_GWork) (map Resolvers.work_arrow xs)).
Proof.
  intros Hb Hfresh H. apply (wp_Array_map read_Work read_GWork); try assumption.
  intros h1 x a _. apply wp_work_arrow.
Qed.

Lemma wp_projects (b : nat) (h : heap) (v : value) (xs : list Project.t) :
  b <= length h -> fresh_from b h -> read_array read_Project h v = Some xs ->
  wp (Array_map v Js.project_arrow) h
     (post b h (read_array read_GProject) (map Resolvers.project_arrow xs)).
Proof.
  intros Hb Hfresh H. apply (wp_Array_map read_Project read_GProject); try assumption.
  intros h1 x a _. apply wp_project_arrow.
Qed.

Lemma wp_skills (b : nat) (h : heap) (v : value) (xs : list string) :
  b <= length h -> fresh_from b h -> read_array read_string h v = Some xs ->
  wp (Js.Array_from v) h
     (post b h (read_array read_string) (Resolvers.Array_from xs)).
Proof. rewrite Array_from_id. apply wp_Array_from. Qed.

(** *** The summary *)

Lemma wp_summary (b : nat) (h : heap) (data : value) (ps : list (string * value))
    (node : ReactNode) :
  b <= length h -> fresh_from b h -> read_object h data = Some ps ->
  read_node h (prop ps "summary") = Some node ->
  wp (let* s := get data "summary" in
      if String.eqb (Js.typeof s) "string" then get data "summary"
      else let* node := get data "summary" in Js.reactNodeToString node) h
     (post b h read_string
        (match node with
         | RString s => s
         | _ => Resolvers.reactNodeToString node
         end)).
Proof.
  intros Hb Hfresh Hps H. gets.
  destruct (prop ps "summary") as [| | | | |l] eqn:E; cbn in H;
    [| | | | | destruct (h !! l) as [[| |]|]; try discriminate];
    injection H as <-; cbn [Js.typeof String.eqb Ascii.eqb Bool.eqb]; gets;
    rewrite E; by repeat split.
Qed.

(** *** The contact literal *)

Lemma wp_contact (b : nat) (h : heap) (data : value) (ps : list (string * value))
    (c : Contact.t) :
  b <= length h -> fresh_from b h -> read_object h data = Some ps ->
  read_Contact h (prop ps "contact") = Some c ->
  wp (let* email := (let* c := get data "contact" in get c "email") in
      let* tel := (let* c := get data "contact" in get c "tel") in
      let* social :=
        (let* c := get data "contact" in
         let* social := get c "social" in
         Array_map social Js.social_arrow) in
      new_object [("email", email); ("tel", tel); ("social", social)]) h
     (post b h read_GContact
        {| TypeDefs.Contact.email := Contact.email c;
           TypeDefs.Contact.tel := Contact.tel c;
           TypeDefs.Contact.social := map Resolvers.social_arrow (Contact.social c) |}).
Proof.
  intros Hb Hfresh Hps H. unfold read_Contact in H. decode H.
  based h. apply wp_bind. gets. apply wp_bind. gets. apply wp_bind. gets.
  sub_here wp_socials. primitives.
  literal read_GContact.
Qed.

(** *** The whole projection *)

(** On a store in which [data] reads as the record [d], the resolver ends
    normally; the store has only grown, the result is a new object, which
    reaches new objects only, and it reads as the projection of [d]. *)
Lemma wp_resumeDataToGraphQL (b : nat) (h : heap) (data : value) (d : ResumeData.t) :
  b <= length h -> fresh_from b h ->
  read_ResumeData h data = Some d ->
  wp (Js.resumeDataToGraphQL data) h
     (post b h read_Me (Resolvers.resumeDataToGraphQL d)).
Proof.
  intros Hb Hfresh H. unfold read_ResumeData in H. decode H.
  based h. unfold Js.resumeDataToGraphQL. gets.
  sub wp_summary. gets. sub wp_contact.
  apply wp_bind. gets. sub_here wp_educations.
  apply wp_bind. gets. sub_here wp_works.
  apply wp_bind. gets. sub_here wp_skills.
  apply wp_bind. gets. sub_here wp_projects.
  primitives.
  literal read_Me.
Qed.

(** *** Every record of the interface has its literal

    Evaluating the literal of a typed record never fails, and what it
    allocates reads back as the record: the records the theorems below
    speak of are all there. *)

Lemma wp_store_node (h : heap) (node : ReactNode) :
  wp (store_node node) h (stored_as h read_node node).
Proof.
  destruct node; try (split; [reflexivity | reflexivity]).
  apply wp_alloc. split; [apply prefix_alloc |].
  unfold read_node. rewrite lookup_alloc. reflexivity.
Qed.

Lemma wp_store_each {A : Type} (rd : dec A) `{!Mono rd} (st : A -> M value) :
  (forall h a, wp (st a) h (stored_as h rd a)) ->
  forall l h,
    wp (each st l) h
       (fun vs h' => h `prefix_of` h' /\ Forall2 (fun v a => rd h' v = Some a) vs l).
Proof.
  intros Hst l. induction l as [|a l IH]; intros h.
  - apply wp_ret. split; [reflexivity | constructor].
  - cbn [each]. apply wp_bind. eapply wp_mono; [apply Hst |].
    intros v h1 (Hp1 & Hv). apply wp_bind. eapply wp_mono; [apply IH |].
    intros vs h2 (Hp2 & Hvs). apply wp_ret.
    split; [by etrans |]. constructor; [| exact Hvs].
    exact (mono_dec _ _ _ _ Hp2 Hv).
Qed.

Lemma wp_store_array {A : Type} (rd : dec A) `{!Mono rd} (st : A -> M value)
    (l : list A) (h : heap) :
  (forall h a, wp (st a) h (stored_as h rd a)) ->
  wp (store_array st l) h (stored_as h (read_array rd) l).
Proof.
  intros Hst. unfold store_array. apply wp_bind.
  eapply wp_mono; [exact (wp_store_each rd st Hst l h) |].
  intros vs h' (Hp & Hvs). apply wp_alloc.
  split; [etrans; [exact Hp | apply prefix_alloc] |].
  unfold read_array. rewrite lookup_alloc. apply mapM_Some.
  eapply Forall2_impl; [exact Hvs |]. intros ? ?. apply mono_dec, prefix_alloc.
Qed.

Lemma wp_store_strings (l : list string) (h : heap) :
  wp (store_strings l) h (stored_as h (read_array read_string) l).
Proof.
  apply (wp_store_array read_string). intros h1 a. split; reflexivity.
Qed.

(** Run the literal of a part, and move on to the store it leaves. *)
Ltac part lem :=
  let r := fresh "r" in let h' := fresh "h'" in
  let Hp := fresh "Hp" in let Hr := fresh "Hr" in
  apply wp_bind; eapply wp_mono; [eapply lem |];
  intros r h' (Hp & Hr); lift Hp;
  match type of Hp with ?h `prefix_of` _ => clear dependent h end.

(** The object literal of a record, its parts being stored. *)
Ltac whole rd :=
  apply wp_alloc; case_options; cbn [app optional_prop];
  match goal with
  | |- stored_as _ _ _ _ (?h' ++ [?o]) =>
      let Hp := fresh "Hp" in
      pose proof (prefix_alloc h' o) as Hp;
      split; [etrans; [eassumption | exact Hp] |];
      lift Hp;
      unfold rd, read_object; rewrite lookup_alloc;
      cbn [mbind option_bind prop String.eqb Ascii.eqb Bool.eqb];
      repeat match goal with
             | H : _ (h' ++ [o]) _ = Some _ |- _ => rewrite H
             end;
      reflexivity
  end.

Lemma wp_store_Social (h : heap) (s : Social.t) :
  wp (store_Social s) h (stored_as h read_Social s).
Proof.
  destruct s as [name url icon navbar]. based h. unfold store_Social.
  cbn [Social.name Social.url Social.icon Social.navbar].
  part wp_store_node. whole read_Social.
Qed.

Lemma wp_store_Socials (h : heap) (l : list Social.t) :
  wp (store_array store_Social l) h (stored_as h (read_array read_Social) l).
Proof. apply (wp_store_array read_Social). intros. apply wp_store_Social. Qed.

Lemma wp_store_Contact (h : heap) (c : Contact.t) :
  wp (store_Contact c) h (stored_as h read_Contact c).
Proof.
  destruct c as [email tel social]. based h. unfold store_Contact.
  cbn [Contact.email Contact.tel Contact.social].
  part wp_store_Socials. whole read_Contact.
Qed.

Lemma wp_store_Education (h : heap) (e : Education.t) :
  wp (store_Education e) h (stored_as h read_Education e).
Proof.
  destruct e as [school degree start end_ link]. based h. unfold store_Education.
  cbn [Education.school Education.degree Education.start Education.end_ Education.link].
  whole read_Education.
Qed.

Lemma wp_store_Educations (h : heap) (l : list Education.t) :
  wp (store_array store_Education l) h (stored_as h (read_array read_Education) l).
Proof. apply (wp_store_array read_Education). intros. apply wp_store_Education. Qed.

Lemma wp_store_badges (h : heap) (o : option (list string)) :
  wp (match o with
      | Some l => store_strings l
      | None => ret VUndefined
      end) h (stored_as h (read_optional (read_array read_string)) o).
Proof.
  destruct o as [l|]; [| split; reflexivity].
  eapply wp_mono; [apply wp_store_strings |].
  intros r h' (Hp & Hr). split; [exact Hp |]. by apply read_optional_array.
Qed.

Lemma wp_store_Work (h : heap) (w : Work.t) :
  wp (store_Work w) h (stored_as h read_Work w).
Proof.
  destruct w as [company title logo start end_ description link badges].
  based h. unfold store_Work.
  cbn [Work.company Work.title Work.logo Work.start Work.end_ Work.description
       Work.link Work.badges].
  part wp_store_node. part wp_store_badges. whole read_Work.
Qed.

Lemma wp_store_Works (h : heap) (l : list Work.t) :
  wp (store_array store_Work l) h (stored_as h (read_array read_Work) l).
Proof. apply (wp_store_array read_Work). intros. apply wp_store_Work. Qed.

Lemma wp_store_ProjectLink (h : heap) (l : ProjectLink.t) :
  wp (store_ProjectLink l) h (stored_as h read_ProjectLink l).
Proof.
  destruct l as [type href icon]. based h. unfold store_ProjectLink.
  cbn [ProjectLink.type ProjectLink.href ProjectLink.icon].
  part wp_store_node. whole read_ProjectLink.
Qed.

Lemma wp_store_ProjectLinks (h : heap) (l : list ProjectLink.t) :
  wp (store_array store_ProjectLink l) h
     (stored_as h (read_array read_ProjectLink) l).
Proof. apply (wp_store_array read_ProjectLink). intros. apply wp_store_ProjectLink. Qed.

Lemma wp_store_Project (h : heap) (p : Project.t) :
  wp (store_Project p) h (stored_as h read_Project p).
Proof.
  destruct p as [title href dates active description technologies links image video].
  based h. unfold store_Project.
  cbn [Project.title Project.href Project.dates Project.active Project.description
       Project.technologies Project.links Project.image Project.video].
  part wp_store_strings. part wp_store_ProjectLinks. whole read_Project.
Qed.

Lemma wp_store_Projects (h : heap) (l : list Project.t) :
  wp (store_array store_Project l) h (stored_as h (read_array read_Project) l).
Proof. apply (wp_store_array read_Project). intros. apply wp_store_Project. Qed.

Lemma wp_store_ResumeData (h : heap) (d : ResumeData.t) :
  wp (store_ResumeData d) h (stored_as h read_ResumeData d).
Proof.
  destruct d as [name initials location locationLink about summary avatarUrl
                   personalWebsiteUrl contact education work skills projects].
  based h. unfold store_ResumeData, store_ResumeData_with.
  cbn [ResumeData.name ResumeData.initials ResumeData.location
       ResumeData.locationLink ResumeData.about ResumeData.summary
       ResumeData.avatarUrl ResumeData.personalWebsiteUrl ResumeData.contact
       ResumeData.education ResumeData.work ResumeData.skills ResumeData.projects].
  part wp_store_node. part wp_store_Contact. part wp_store_Educations.
  part wp_store_Works. part wp_store_strings. part wp_store_Projects.
  whole read_ResumeData.
Qed.

(** Every record has its literal, in whatever store it is evaluated. *)
Lemma store_ResumeData_spec (h0 : heap) (d : ResumeData.t) :
  exists data h,
    store_ResumeData d h0 = Ok data h
    /\ h0 `prefix_of` h
    /\ read_ResumeData h data = Some d.
Proof.
  pose proof (wp_store_ResumeData h0 d) as Hwp. unfold wp in Hwp.
  destruct (store_ResumeData d h0) as [data h| |]; try done.
  exists data, h. split; [reflexivity | exact Hwp].
Qed.

(** *** What the result reaches *)

Lemma reach_fresh (b : nat) (h : heap) :
  fresh_from b h ->
  forall n v l, val_fresh b v -> l ∈ reach n h v -> b <= l /\ l < length h.
Proof.
  intros Hfresh. induction n as [|n IH]; intros v l Hv Hl; [by apply elem_of_nil in Hl |].
  destruct v; try (by apply elem_of_nil in Hl). cbn [reach] in Hl.
  destruct (h !! l0) as [o|] eqn:E; [| by apply elem_of_nil in Hl].
  apply elem_of_cons in Hl as [-> | Hl].
  - split; [exact Hv | by apply lookup_lt_Some in E].
  - apply list_elem_of_In, in_flat_map in Hl as (v & Hin & Hl).
    apply list_elem_of_In in Hl. apply (IH v l); [| exact Hl].
    pose proof (Hfresh l0 o Hv E) as Hall.
    rewrite Forall_forall in Hall. apply Hall. by apply list_elem_of_In.
Qed.

Lemma reach_allocated (h : heap) (n : nat) (v : value) (l : nat) :
  l ∈ reach n h v -> l < length h.
Proof.
  intros Hl. apply (reach_fresh 0 h) with (n := n) (v := v); [| | exact Hl].
  - intros l' o _ _. apply Forall_forall. intros x _. destruct x; simpl; lia.
  - destruct v; simpl; lia.
Qed.

(** The call as a whole, from the store it is made in. *)
Lemma resumeDataToGraphQL_spec (h : heap) (data : value) (d : ResumeData.t) :
  read_ResumeData h data = Some d ->
  exists r h',
    Js.resumeDataToGraphQL data h = Ok r h'
    /\ h `prefix_of` h'
    /\ fresh_from (length h) h'
    /\ val_fresh (length h) r
    /\ read_Me h' r = Some (Resolvers.resumeDataToGraphQL d).
Proof.
  intros H.
  pose proof (wp_resumeDataToGraphQL (length h) h data d (reflexivity _)
                (fresh_from_base h) H) as Hwp.
  unfold wp in Hwp. destruct (Js.resumeDataToGraphQL data h) as [r h'| |]; try done.
  exists r, h'. split; [reflexivity | exact Hwp].
Qed.

(** The projection of a typed record never throws. *)
Lemma projection_is_total (h0 : heap) (d : ResumeData.t) :
  exists data h r h',
    store_ResumeData d h0 = Ok data h
    /\ Js.resumeDataToGraphQL data h = Ok r h'
    /\ read_Me h' r = Some (Resolvers.resumeDataToGraphQL d).
Proof.
  destruct (store_ResumeData_spec h0 d) as (data & h & Hstore & _ & Hdata).
  destruct (resumeDataToGraphQL_spec h data d Hdata) as (r & h' & Hrun & _ & _ & _ & Hr).
  by exists data, h, r, h'.
Qed.

(** The data file's own [projects] entries have no [technologies] (they
    have [techStack]): on the record as shipped, the resolver of the guide
    throws at [Array.from(p.technologies)]. *)
Lemma shipped_projects_make_the_resolver_throw :
  exists data h,
    SHIPPED = Ok data h
    /\ Js.resumeDataToGraphQL data h = Throw "TypeError: undefined is not iterable".
Proof. eexists _, _. split; vm_compute; reflexivity. Qed.

End JsFacts.

(** C10. The projection does not write to its input: every object and
    array that existed before the call is the same after it, so the input
    reads as the same record; and the result is built from new objects
    only: whatever it reaches was allocated by the call, and nothing the
    input reached is among it. *)
Theorem projection_leaves_its_input_alone (h : list Js.object) (data : Js.value)
    (d : ResumeData.t)
    (Hdata : Js.read_ResumeData h data = Some d) :
  exists r h',
    Js.resumeDataToGraphQL data h = Js.Ok r h'
    /\ (forall l o, h !! l = Some o -> h' !! l = Some o)
    /\ Js.read_ResumeData h' data = Some d
    /\ Js.read_Me h' r = Some (Resolvers.resumeDataToGraphQL d)
    /\ (forall n l, l ∈ Js.reach n h' r ->
          length h <= l < length h' /\ h !! l = None)
    /\ (forall n m l, l ∈ Js.reach n h' r -> l ∉ Js.reach m h data).
Proof.
  destruct (JsFacts.resumeDataToGraphQL_spec h data d Hdata)
    as (r & h' & Hrun & Hp & Hfresh & Hv & Hr).
  exists r, h'. split; [exact Hrun |].
  split; [intros l o Hl; exact (prefix_lookup_Some _ _ _ _ Hl Hp) |].
  split; [exact (JsFacts.mono_ResumeData _ _ _ _ Hp Hdata) |].
  split; [exact Hr |].
  assert (Hnew : forall n l, l ∈ Js.reach n h' r -> length h <= l < length h').
  { intros n l Hl. exact (JsFacts.reach_fresh _ _ Hfresh n r l Hv Hl). }
  split.
  - intros n l Hl. split; [exact (Hnew n l Hl) |].
    apply lookup_ge_None. apply (Hnew n l Hl).
  - intros n m l Hl Hin. apply JsFacts.reach_allocated in Hin.
    apply Hnew in Hl. lia.
Qed.

Lemma projection_leaves_its_input_alone_witness :
  Js.read_ResumeData Js.RESUME_DATA_heap Js.RESUME_DATA = Some Data.RESUME_DATA
  /\ exists r h',
       Js.resumeDataToGraphQL Js.RESUME_DATA Js.RESUME_DATA_heap = Js.Ok r h'
       /\ (forall l o, Js.RESUME_DATA_heap !! l = Some o -> h' !! l = Some o)
       /\ Js.read_ResumeData h' Js.RESUME_DATA = Some Data.RESUME_DATA
       /\ Js.read_Me h' r = Some (Resolvers.resumeDataToGraphQL Data.RESUME_DATA)
       /\ (forall n l, l ∈ Js.reach n h' r ->
             length Js.RESUME_DATA_heap <= l < length h'
             /\ Js.RESUME_DATA_heap !! l = None)
       /\ (forall n m l, l ∈ Js.reach n h' r ->
             l ∉ Js.reach m Js.RESUME_DATA_heap Js.RESUME_DATA).
Proof.
  split; [vm_compute; reflexivity |].
  apply (projection_leaves_its_input_alone Js.RESUME_DATA_heap Js.RESUME_DATA
           Data.RESUME_DATA).
  vm_compute; reflexivity.
Defined.



(** * Further properties *)

(** ** What the cards show *)

Lemma texts_element (t : string) (k h : option string) (cs : list Page.Markup) :
  Page.texts (Page.Element t k h cs) = flat_map Page.texts cs.
Proof.
  induction cs as [|c cs IH]; [reflexivity |].
  change (Page.texts c ++ Page.texts (Page.Element t k h cs)
          = Page.texts c ++ flat_map Page.texts cs).
  by rewrite IH.
Qed.

Lemma texts_labels (tg : string) (l : list string) :
  flat_map Page.texts
    (map (fun x => Page.Element tg (Some x) None [Page.Text x]) l) = l.
Proof. induction l as [|x l IH]; [reflexivity |]. simpl. by rewrite IH. Qed.

Lemma descendants_element (t tg : string) (k h : option string)
    (cs : list Page.Markup) :
  Page.descendants t (Page.Element tg k h cs)
  = flat_map (fun c => if String.eqb (Page.tag c) t then [c]
                       else Page.descendants t c) cs.
Proof.
  induction cs as [|c cs IH]; [reflexivity |].
  rewrite descendants_cons, IH. reflexivity.
Qed.

Lemma descendants_labels (t tg : string) (l : list string) :
  String.eqb tg t = false -> String.eqb "" t = false ->
  flat_map (fun c => if String.eqb (Page.tag c) t then [c]
                     else Page.descendants t c)
    (map (fun x => Page.Element tg (Some x) None [Page.Text x]) l) = [].
Proof.
  intros Ht Hempty. induction l as [|x l IH]; [reflexivity |].
  cbn [map flat_map Page.tag]. rewrite Ht, IH, descendants_element.
  cbn [flat_map Page.tag]. rewrite Hempty. reflexivity.
Qed.

(** Turn the text (or the elements of one tag) of a written-out element
    into that of its children. *)
Ltac walk :=
  repeat (progress (rewrite ?texts_element, ?descendants_element;
                    cbn [flat_map app Page.tag String.eqb Ascii.eqb Bool.eqb]);
          rewrite ?texts_labels, ?descendants_labels by reflexivity).

(** X1. A card shows the fields of its entry as they are written in the
    record, in a fixed order and nothing else: a work card the company,
    the start and the end of the period (an end of "Present" is shown as
    that word), the title, the description and the badges; an education
    card the school, the period and the degree; a project card the title,
    the dates, the description and the technologies, the activity
    indicator adding no text. *)
Theorem cards_show_their_entries_verbatim (work : Work.t)
    (education : Education.t) (project : Project.t) :
  Page.texts (Page.WorkCard work)
  = [Work.company work; Work.start work; " - "; Work.end_ work;
     Work.title work; Work.description work]
    ++ default [] (Work.badges work)
  /\ Page.texts (Page.EducationCard education)
     = [Education.school education; Education.start education; " - ";
        Education.end_ education; Education.degree education]
  /\ Page.texts (Page.ProjectCard project)
     = [Project.title project; Project.dates project; Project.description project]
       ++ Project.technologies project.
Proof.
  unfold Page.WorkCard, Page.EducationCard, Page.ProjectCard, Page.el.
  split; [| split].
  - destruct (Page.truthy (Work.link work)), (Work.badges work) as [badges|];
      walk; cbn [Page.texts app default]; rewrite ?app_nil_r; reflexivity.
  - destruct (Page.truthy (Education.link education)); walk; reflexivity.
  - destruct (Page.truthy (Project.href project)), (Project.active project);
      walk; cbn [Page.texts app]; rewrite ?app_nil_r; reflexivity.
Qed.

Lemma descendants_tagged (t : string) (cs : list Page.Markup) :
  Forall (fun c => Page.tag c = t) cs ->
  flat_map (fun c => if String.eqb (Page.tag c) t then [c]
                     else Page.descendants t c) cs = cs.
Proof.
  induction 1 as [|c cs Hc _ IH]; [reflexivity |].
  cbn [flat_map]. rewrite Hc, String.eqb_refl, IH. reflexivity.
Qed.

(** X2. The company of a work card, the school of an education card and
    the title of a project card are links exactly when the entry has a
    link that is not the empty string; the link then leads to it, and a
    card has no other link. *)
Theorem cards_link_only_to_a_nonempty_link (work : Work.t)
    (education : Education.t) (project : Project.t) :
  Page.descendants "a" (Page.WorkCard work)
  = match Work.link work with
    | Some l => if String.eqb l "" then []
                else [Page.Element "a" None (Some l) [Page.Text (Work.company work)]]
    | None => []
    end
  /\ Page.descendants "a" (Page.EducationCard education)
     = match Education.link education with
       | Some l => if String.eqb l "" then []
                   else [Page.Element "a" None (Some l)
                           [Page.Text (Education.school education)]]
       | None => []
       end
  /\ Page.descendants "a" (Page.ProjectCard project)
     = match Project.href project with
       | Some l => if String.eqb l "" then []
                   else [Page.Element "a" None (Some l)
                           [Page.Text (Project.title project)]]
       | None => []
       end.
Proof.
  unfold Page.WorkCard, Page.EducationCard, Page.ProjectCard, Page.el, Page.truthy.
  split; [| split].
  - destruct (Work.link work) as [l|]; [destruct (String.eqb l "") |];
      destruct (Work.badges work); walk; reflexivity.
  - destruct (Education.link education) as [l|]; [destruct (String.eqb l "") |];
      walk; reflexivity.
  - destruct (Project.href project) as [l|]; [destruct (String.eqb l "") |];
      destruct (Project.active project); walk; reflexivity.
Qed.

(** X3. The badges of a work card are the entry's badges, in order, and
    none when the entry has no [badges]; the element that wraps them is
    there whenever [badges] is an array, also an empty one. *)
Theorem work_card_badges (work : Work.t) :
  Page.descendants "Badge" (Page.WorkCard work)
  = map (fun badge => Page.Element "Badge" (Some badge) None [Page.Text badge])
        (default [] (Work.badges work))
  /\ length (Page.descendants "div" (Page.WorkCard work))
     = match Work.badges work with
       | Some _ => 2
       | None => 1
       end.
Proof.
  unfold Page.WorkCard, Page.el.
  destruct (Page.truthy (Work.link work)), (Work.badges work) as [badges|];
    walk; rewrite ?descendants_tagged by (apply Forall_map_tag; reflexivity);
    cbn [Page.descendants app default map]; rewrite ?app_nil_r;
    split; reflexivity.
Qed.

Lemma NoDup_map_Some {A : Type} (l : list A) :
  NoDup (map Some l) <-> NoDup l.
Proof.
  induction l as [|x l IH]; [split; constructor |].
  cbn [map]. rewrite !NoDup_cons, IH.
  assert (Some x ∈ map Some l <-> x ∈ l) as ->; [| reflexivity].
  rewrite !list_elem_of_In, in_map_iff. split.
  - intros (y & [= ->] & Hy). exact Hy.
  - intros Hx. eauto.
Qed.

(** X4. The work cards take their React keys from the companies: the keys
    are pairwise different exactly when the companies are, and in the
    record of the data file, which names one company twice, two cards have
    the same key. *)
Theorem work_card_keys_are_the_companies (work : list Work.t) :
  (NoDup (map Page.key (Page.work_blocks work)) <-> NoDup (map Work.company work))
  /\ ~ NoDup (map Page.key (Page.work_blocks (ResumeData.work Data.RESUME_DATA))).
Proof.
  assert (Hkeys : forall ws, map Page.key (Page.work_blocks ws)
                             = map Some (map Work.company ws)).
  { intros ws. rewrite work_blocks_map, !map_map. reflexivity. }
  rewrite !Hkeys, !NoDup_map_Some. split; [reflexivity |].
  apply (bool_decide_eq_false_1 (NoDup _)). vm_compute. reflexivity.
Qed.

(** X5. The contact block of the header links to the mail address and to
    the phone number only when they are not empty, and then to every social
    link, in order; the print-only block shows the address and the number
    under the same condition. *)
Theorem contact_block_skips_empty_entries (contact : Contact.t) :
  map Page.href (Page.descendants "a" (Page.ContactLinks contact))
  = (if String.eqb (Contact.email contact) "" then []
     else [Some ("mailto:" +:+ Contact.email contact)])
    ++ (if String.eqb (Contact.tel contact) "" then []
        else [Some ("tel:" +:+ Contact.tel contact)])
    ++ map (fun social => Some (Social.url social)) (Contact.social contact)
  /\ Page.texts (Page.ContactPrint contact)
     = (if String.eqb (Contact.email contact) "" then [] else [Contact.email contact])
       ++ (if String.eqb (Contact.tel contact) "" then [] else [Contact.tel contact]).
Proof.
  unfold Page.ContactLinks, Page.ContactPrint, Page.el, Page.truthy.
  split.
  - rewrite descendants_element, descendants_tagged.
    + destruct (String.eqb (Contact.email contact) ""),
               (String.eqb (Contact.tel contact) "");
        cbn [negb app map Page.href]; rewrite map_map; reflexivity.
    + repeat apply Forall_app_2.
      * destruct (String.eqb (Contact.email contact) ""); repeat constructor.
      * destruct (String.eqb (Contact.tel contact) ""); repeat constructor.
      * apply Forall_map_tag. reflexivity.
  - destruct (String.eqb (Contact.email contact) ""),
             (String.eqb (Contact.tel contact) ""); reflexivity.
Qed.

(** ** Runs of the command palette *)

(** X6. Key presses other than modifier+k (the lower-case key with Meta or
    with Ctrl) do nothing in the listener: after any number of them the
    palette is as it was, and no default action was prevented. *)
Theorem other_keys_are_ignored (open : bool) (es : list event)
    (Hother : forallb other_key es = true) :
  run open es = Some (open, []).
Proof.
  induction es as [|e es IH]; [reflexivity |].
  cbn [forallb] in Hother. apply andb_prop in Hother as [He Hes].
  destruct e as [key metaKey ctrlKey | | |]; try discriminate.
  cbn [run step]. unfold down. cbn [other_key] in He.
  apply negb_true_iff in He. rewrite He, (IH Hes). reflexivity.
Qed.

Lemma other_keys_are_ignored_witness :
  forallb other_key [keydown "K" true false; keydown "k" false false;
                     keydown "p" false true] = true
  /\ run true [keydown "K" true false; keydown "k" false false;
               keydown "p" false true] = Some (true, []).
Proof.
  split; [reflexivity |].
  apply (other_keys_are_ignored true
           [keydown "K" true false; keydown "k" false false; keydown "p" false true]).
  reflexivity.
Defined.

(** X7. What a run of events does to the browser is the commands of the
    items that were selected, in the order they were selected, and one
    prevented default per modifier+k press: opening, closing and
    dismissing the palette print nothing, scroll nothing and open no
    window. *)
Theorem effects_are_the_selected_commands (open open' : bool) (es : list event)
    (fx : list effect)
    (Hrun : run open es = Some (open', fx)) :
  List.filter (fun e => negb (is_preventDefault e)) fx = flat_map command (selected es)
  /\ length (List.filter is_preventDefault fx) = length (List.filter is_mod_k es).
Proof.
  revert open fx Hrun. induction es as [|e es IH]; intros open fx Hrun.
  - injection Hrun as <- <-. split; reflexivity.
  - cbn [run] in Hrun.
    destruct (step open e) as [[mid fx1]|] eqn:Hstep; [| discriminate].
    destruct (run mid es) as [[open'' fx2]|] eqn:Hrest; [| discriminate].
    injection Hrun as <- <-. destruct (IH _ _ Hrest) as [IH1 IH2].
    rewrite !List.filter_app, List.length_app, IH1, IH2.
    destruct e as [key metaKey ctrlKey | | o | i]; cbn [step] in Hstep.
    + injection Hstep as Hdown. unfold down in Hdown. cbn [selected List.filter is_mod_k].
      destruct (String.eqb key "k" && (metaKey || ctrlKey)) eqn:Hk;
        injection Hdown as <- <-; cbn [selected flat_map List.filter is_mod_k app length];
        rewrite ?Hk; split; reflexivity.
    + injection Hstep as <- <-. split; reflexivity.
    + destruct open; [| discriminate]. injection Hstep as <- <-. split; reflexivity.
    + destruct open; [| discriminate]. injection Hstep as <- <-.
      cbn [selected flat_map List.filter is_mod_k].
      split; [| destruct i; reflexivity].
      f_equal. destruct i; reflexivity.
Qed.

Lemma effects_are_the_selected_commands_witness :
  run false [keydown "k" true false; select ScrollToTop; click_trigger;
             openChange false; keydown "k" false true; select PrintResume]
  = Some (false, [preventDefault; window_scrollTo 0 "smooth"; preventDefault;
                  window_print])
  /\ List.filter (fun e => negb (is_preventDefault e))
       [preventDefault; window_scrollTo 0 "smooth"; preventDefault; window_print]
     = flat_map command
         (selected [keydown "k" true false; select ScrollToTop; click_trigger;
                    openChange false; keydown "k" false true; select PrintResume])
  /\ length (List.filter is_preventDefault
               [preventDefault; window_scrollTo 0 "smooth"; preventDefault;
                window_print])
     = length (List.filter is_mod_k
                 [keydown "k" true false; select ScrollToTop; click_trigger;
                  openChange false; keydown "k" false true; select PrintResume]).
Proof.
  split; [reflexivity |].
  apply (effects_are_the_selected_commands false false
           [keydown "k" true false; select ScrollToTop; click_trigger;
            openChange false; keydown "k" false true; select PrintResume]).
  reflexivity.
Defined.

Lemma run_mod_k (n : nat) (open metaKey ctrlKey : bool) :
  metaKey || ctrlKey = true ->
  run open (repeat (keydown "k" metaKey ctrlKey) n)
  = Some (if Nat.even n then open else negb open, repeat preventDefault n).
Proof.
  intros Hmod. revert open. induction n as [|n IH]; intros open; [reflexivity |].
  cbn [repeat run step]. unfold down. cbn [String.eqb Ascii.eqb Bool.eqb andb].
  rewrite Hmod, IH. rewrite Nat.even_succ, <- Nat.negb_even.
  destruct (Nat.even n), open; reflexivity.
Qed.

(** X8. Pressing modifier+k n times from the closed palette leaves it
    open when n is odd and closed when n is even (two presses undo each
    other), each press preventing the browser's default once. *)
Theorem mod_k_presses_alternate (n : nat) (metaKey ctrlKey : bool)
    (Hmod : metaKey || ctrlKey = true) :
  run initial (repeat (keydown "k" metaKey ctrlKey) n)
  = Some (Nat.odd n, repeat preventDefault n).
Proof.
  rewrite (run_mod_k n initial metaKey ctrlKey Hmod). unfold initial.
  rewrite <- Nat.negb_even. destruct (Nat.even n); reflexivity.
Qed.

Lemma mod_k_presses_alternate_witness :
  true || false = true
  /\ run initial (repeat (keydown "k" true false) 3)
     = Some (Nat.odd 3, repeat preventDefault 3).
Proof.
  split; [reflexivity | apply (mod_k_presses_alternate 3 true false); reflexivity].
Defined.

(** ** What the projection loses *)

Lemma back_of_projection (d : ResumeData.t) :
  Wire.back (Resolvers.resumeDataToGraphQL d) = Wire.forget d.
Proof.
  destruct d as [name initials location locationLink about summary avatarUrl
                 personalWebsiteUrl [email tel social] education work skills projects].
  unfold Wire.back, Wire.forget, Resolvers.resumeDataToGraphQL, Resolvers.Array_from.
  cbn [TypeDefs.Me.name TypeDefs.Me.initials TypeDefs.Me.location
       TypeDefs.Me.locationLink TypeDefs.Me.about TypeDefs.Me.summary
       TypeDefs.Me.avatarUrl TypeDefs.Me.personalWebsiteUrl TypeDefs.Me.contact
       TypeDefs.Me.education TypeDefs.Me.work TypeDefs.Me.skills TypeDefs.Me.projects
       TypeDefs.Contact.email TypeDefs.Contact.tel TypeDefs.Contact.social
       ResumeData.name ResumeData.initials ResumeData.location
       ResumeData.locationLink ResumeData.about ResumeData.summary
       ResumeData.avatarUrl ResumeData.personalWebsiteUrl ResumeData.contact
       ResumeData.education ResumeData.work ResumeData.skills ResumeData.projects
       Contact.email Contact.tel Contact.social].
  rewrite !List.map_map, List.map_id.
  f_equal.
  - by destruct summary.
  - rewrite <- (List.map_id education) at 2. apply List.map_ext. by intros [].
  - apply List.map_ext. intros [company title logo start end_ description link badges].
    unfold Wire.forget_work, Resolvers.work_arrow, Resolvers.Array_from. cbn.
    f_equal. destruct badges; [by rewrite List.map_id | reflexivity].
  - apply List.map_ext. intros [title href dates active description technologies links
                                image video].
    unfold Wire.forget_project, Resolvers.project_arrow, Resolvers.Array_from. cbn.
    by rewrite List.map_map, List.map_id.
Qed.

Lemma projection_of_forget (d : ResumeData.t) :
  Resolvers.resumeDataToGraphQL (Wire.forget d) = Resolvers.resumeDataToGraphQL d.
Proof.
  destruct d as [name initials location locationLink about summary avatarUrl
                 personalWebsiteUrl [email tel social] education work skills projects].
  unfold Wire.forget, Resolvers.resumeDataToGraphQL. cbn.
  rewrite !List.map_map.
  f_equal.
  - by destruct summary.
  - apply List.map_ext. intros [title href dates active description technologies links
                                image video].
    unfold Resolvers.project_arrow. cbn. by rewrite List.map_map.
Qed.

(** X9. What the projection loses is the icons, the logos and the markup
    of a summary that is not a string, and nothing else: two records have
    the same wire value exactly when they agree once every icon and logo
    is dropped and a summary that is not a string is replaced by the
    placeholder. *)
Theorem projection_loses_icons_logos_and_markup_only (d1 d2 : ResumeData.t) :
  Resolvers.resumeDataToGraphQL d1 = Resolvers.resumeDataToGraphQL d2
  <-> Wire.forget d1 = Wire.forget d2.
Proof.
  split; intros H.
  - rewrite <- !back_of_projection. by rewrite H.
  - rewrite <- (projection_of_forget d1), <- (projection_of_forget d2). by rewrite H.
Qed.

(** ** Records the resolver cannot project *)

Module JsThrows.
Import Js JsFacts.

Lemma get_object (v : value) (k : string) (h : heap) (ps : list (string * value)) :
  read_object h v = Some ps -> get v k h = Ok (prop ps k) h.
Proof.
  unfold read_object, get. destruct v; try discriminate.
  destruct (h !! l) as [[| |]|]; try discriminate. by intros [= ->].
Qed.

Lemma bind_get {B : Type} (v : value) (k : string) (f : value -> M B) (h : heap)
    (ps : list (string * value)) :
  read_object h v = Some ps -> bind (get v k) f h = f (prop ps k) h.
Proof. intros H. unfold bind. by rewrite (get_object v k h ps H). Qed.

Lemma bind_throw {A B : Type} (m : M A) (k : A -> M B) (h : heap) (e : string) :
  m h = Throw e -> bind m k h = Throw e.
Proof. unfold bind. by intros ->. Qed.

Lemma bind_after {A B : Type} (m : M A) (k : A -> M B) (h : heap)
    (Q : A -> heap -> Prop) (e : string) :
  wp m h Q -> (forall a h', Q a h' -> k a h' = Throw e) -> bind m k h = Throw e.
Proof. unfold wp, bind. destruct (m h); [auto | done | done]. Qed.

(** Reading the properties at the head of the computation. *)
Ltac reads H := repeat (rewrite (bind_get _ _ _ _ _ H); cbv beta).

(** The summary is read whatever it is. *)
Lemma summary_ends (data : value) (h : heap) (ps : list (string * value)) :
  read_object h data = Some ps ->
  wp (let* s := get data "summary" in
      if String.eqb (Js.typeof s) "string" then get data "summary"
      else let* node := get data "summary" in Js.reactNodeToString node) h
     (fun _ h' => h' = h).
Proof.
  intros H. unfold wp. reads H.
  destruct (String.eqb (Js.typeof (prop ps "summary")) "string").
  - by rewrite (get_object _ _ _ _ H).
  - reads H. unfold Js.reactNodeToString.
    by destruct (String.eqb (Js.typeof (prop ps "summary")) "string").
Qed.

Lemma project_without_technologies (bad : value) (h : heap)
    (pps : list (string * value)) :
  read_object h bad = Some pps ->
  prop pps "technologies" = VUndefined ->
  Js.project_arrow bad h = Throw "TypeError: undefined is not iterable".
Proof.
  intros H Htech. unfold Js.project_arrow. reads H.
  apply bind_throw. reads H. by rewrite Htech.
Qed.

Lemma each_project_without_technologies (b : nat) (bad : value) (rest : list value)
    (pps : list (string * value)) (good : list value) :
  forall (h : heap) (gs : list Project.t),
    b <= length h -> fresh_from b h ->
    Forall2 (fun x a => read_Project h x = Some a) good gs ->
    read_object h bad = Some pps ->
    prop pps "technologies" = VUndefined ->
    each Js.project_arrow (good ++ bad :: rest) h
    = Throw "TypeError: undefined is not iterable".
Proof.
  induction good as [|x good IH]; intros h gs Hb Hfresh Hgood Hbad Htech.
  - cbn [app each]. apply bind_throw. by apply (project_without_technologies bad h pps).
  - apply Forall2_cons_inv_l in Hgood as (a & gs' & Ha & Hgs & ->).
    cbn [app each].
    eapply bind_after; [exact (wp_project_arrow b h x a Hb Hfresh Ha) |].
    intros y h1 (Hp & Hf & _ & _). apply bind_throw.
    apply (IH h1 gs'); [apply prefix_length in Hp; lia | exact Hf | | | exact Htech].
    + eapply Forall2_impl; [exact Hgs |]. intros ? ?. apply mono_dec, Hp.
    + exact (mono_dec _ _ _ _ Hp Hbad).
Qed.

Lemma resolver_throws_at_projects (h : heap) (data : value)
    (ps : list (string * value)) (c : Contact.t) (es : list Education.t)
    (ws : list Work.t) (ss : list string) (l : nat) (good : list value)
    (gs : list Project.t) (bad : value) (rest : list value)
    (pps : list (string * value)) :
  read_object h data = Some ps ->
  read_Contact h (prop ps "contact") = Some c ->
  read_array read_Education h (prop ps "education") = Some es ->
  read_array read_Work h (prop ps "work") = Some ws ->
  read_array read_string h (prop ps "skills") = Some ss ->
  prop ps "projects" = VRef l ->
  h !! l = Some (OArray (good ++ bad :: rest)) ->
  mapM (read_Project h) good = Some gs ->
  read_object h bad = Some pps ->
  prop pps "technologies" = VUndefined ->
  Js.resumeDataToGraphQL data h = Throw "TypeError: undefined is not iterable".
Proof.
  intros Hdata Hcontact Heducation Hwork Hskills Hprojects Harray Hgood Hbad Htech.
  apply mapM_Some in Hgood.
  pose proof (fresh_from_base h) as Hfresh.
  assert (Hb : length h <= length h) by reflexivity.
  revert Hb Hfresh. generalize (length h) at 1 3. intros b Hb Hfresh.
  unfold Js.resumeDataToGraphQL. reads Hdata.
  eapply bind_after; [exact (summary_ends data h ps Hdata) |].
  intros summary ? ->. reads Hdata.
  eapply bind_after; [exact (wp_contact b h data ps c Hb Hfresh Hdata Hcontact) |].
  intros r1 h1 (Hp1 & Hf1 & _ & _).
  assert (Hb1 : b <= length h1) by (apply prefix_length in Hp1; lia).
  pose proof (mono_dec _ _ _ _ Hp1 Hdata) as Hdata1.
  eapply bind_after.
  { apply wp_bind. eapply wp_get; [exact Hdata1 |].
    exact (wp_educations b h1 _ es Hb1 Hf1 (mono_dec _ _ _ _ Hp1 Heducation)). }
  intros r2 h2 (Hp2 & Hf2 & _ & _).
  assert (Hq2 : h `prefix_of` h2) by (by etrans).
  assert (Hb2 : b <= length h2) by (apply prefix_length in Hp2; lia).
  pose proof (mono_dec _ _ _ _ Hq2 Hdata) as Hdata2.
  eapply bind_after.
  { apply wp_bind. eapply wp_get; [exact Hdata2 |].
    exact (wp_works b h2 _ ws Hb2 Hf2 (mono_dec _ _ _ _ Hq2 Hwork)). }
  intros r3 h3 (Hp3 & Hf3 & _ & _).
  assert (Hq3 : h `prefix_of` h3) by (by etrans).
  assert (Hb3 : b <= length h3) by (apply prefix_length in Hp3; lia).
  pose proof (mono_dec _ _ _ _ Hq3 Hdata) as Hdata3.
  eapply bind_after.
  { apply wp_bind. eapply wp_get; [exact Hdata3 |].
    exact (wp_skills b h3 _ ss Hb3 Hf3 (mono_dec _ _ _ _ Hq3 Hskills)). }
  intros r4 h4 (Hp4 & Hf4 & _ & _).
  assert (Hq4 : h `prefix_of` h4) by (by etrans).
  assert (Hb4 : b <= length h4) by (apply prefix_length in Hp4; lia).
  pose proof (mono_dec _ _ _ _ Hq4 Hdata) as Hdata4.
  apply bind_throw. reads Hdata4. rewrite Hprojects.
  unfold Array_map. rewrite (prefix_lookup_Some _ _ _ _ Harray Hq4).
  apply bind_throw.
  apply (each_project_without_technologies b bad rest pps good h4 gs); try assumption.
  - eapply Forall2_impl; [exact Hgood |]. intros ? ?. apply mono_dec, Hq4.
  - exact (mono_dec _ _ _ _ Hq4 Hbad).
Qed.

End JsThrows.

(** X10. A record without [contact] cannot be projected: whatever else the
    object holds, the resolver throws a TypeError at [data.contact.email],
    before it has built anything. *)
Theorem record_without_contact_makes_the_resolver_throw (h : list Js.object)
    (data : Js.value) (ps : list (string * Js.value))
    (Hdata : Js.read_object h data = Some ps)
    (Hcontact : Js.prop ps "contact" = Js.VUndefined \/ Js.prop ps "contact" = Js.VNull) :
  Js.resumeDataToGraphQL data h
  = Js.Throw "TypeError: Cannot read properties of undefined".
Proof.
  unfold Js.resumeDataToGraphQL. JsThrows.reads Hdata.
  eapply JsThrows.bind_after; [exact (JsThrows.summary_ends data h ps Hdata) |].
  intros summary ? ->. JsThrows.reads Hdata.
  do 2 apply JsThrows.bind_throw. JsThrows.reads Hdata.
  by destruct Hcontact as [-> | ->].
Qed.

Lemma record_without_contact_makes_the_resolver_throw_witness :
  Js.read_object [Js.OObject [("name", Js.VString "Ban Nguyen")]] (Js.VRef 0)
  = Some [("name", Js.VString "Ban Nguyen")]
  /\ Js.resumeDataToGraphQL (Js.VRef 0) [Js.OObject [("name", Js.VString "Ban Nguyen")]]
     = Js.Throw "TypeError: Cannot read properties of undefined".
Proof.
  split; [reflexivity |].
  apply (record_without_contact_makes_the_resolver_throw
           [Js.OObject [("name", Js.VString "Ban Nguyen")]] (Js.VRef 0)
           [("name", Js.VString "Ban Nguyen")]);
    [reflexivity | left; reflexivity].
Defined.

(** X11. One project entry without [technologies] makes the whole
    projection fail: when the contact, education, work and skills of the
    record are well formed and the [projects] array holds well-formed
    entries followed by an object that has no [technologies], the resolver
    throws a TypeError at [Array.from(p.technologies)] and returns
    nothing.  The entries of the data file, which name the list
    [techStack], are of this kind. *)
Theorem project_without_technologies_makes_the_resolver_throw
    (h : list Js.object) (data : Js.value) (ps : list (string * Js.value))
    (c : Contact.t) (es : list Education.t) (ws : list Work.t) (ss : list string)
    (l : nat) (good : list Js.value) (gs : list Project.t) (bad : Js.value)
    (rest : list Js.value) (pps : list (string * Js.value))
    (Hdata : Js.read_object h data = Some ps)
    (Hcontact : Js.read_Contact h (Js.prop ps "contact") = Some c)
    (Heducation : Js.read_array Js.read_Education h (Js.prop ps "education") = Some es)
    (Hwork : Js.read_array Js.read_Work h (Js.prop ps "work") = Some ws)
    (Hskills : Js.read_array Js.read_string h (Js.prop ps "skills") = Some ss)
    (Hprojects : Js.prop ps "projects" = Js.VRef l)
    (Harray : h !! l = Some (Js.OArray (good ++ bad :: rest)))
    (Hgood : mapM (Js.read_Project h) good = Some gs)
    (Hbad : Js.read_object h bad = Some pps)
    (Htech : Js.prop pps "technologies" = Js.VUndefined) :
  Js.resumeDataToGraphQL data h = Js.Throw "TypeError: undefined is not iterable".
Proof.
  exact (JsThrows.resolver_throws_at_projects h data ps c es ws ss l good gs bad rest
           pps Hdata Hcontact Heducation Hwork Hskills Hprojects Harray Hgood Hbad
           Htech).
Qed.

Lemma project_without_technologies_makes_the_resolver_throw_witness :
  (exists ps l bad rest pps,
     Js.read_object Js.SHIPPED_heap Js.SHIPPED_DATA = Some ps
     /\ Js.prop ps "projects" = Js.VRef l
     /\ Js.SHIPPED_heap !! l = Some (Js.OArray (bad :: rest))
     /\ Js.read_object Js.SHIPPED_heap bad = Some pps
     /\ Js.prop pps "technologies" = Js.VUndefined)
  /\ Js.resumeDataToGraphQL Js.SHIPPED_DATA Js.SHIPPED_heap
     = Js.Throw "TypeError: undefined is not iterable".
Proof.
  pose (ps := default [] (Js.read_object Js.SHIPPED_heap Js.SHIPPED_DATA)).
  pose (l := match Js.prop ps "projects" with Js.VRef l => l | _ => 0 end).
  pose (elems := match Js.SHIPPED_heap !! l with
                 | Some (Js.OArray elems) => elems
                 | _ => []
                 end).
  pose (bad := default Js.VUndefined (head elems)).
  pose (pps := default [] (Js.read_object Js.SHIPPED_heap bad)).
  split.
  - exists ps, l, bad, (tail elems), pps.
    split; [vm_compute; reflexivity |]. split; [vm_compute; reflexivity |].
    split; [vm_compute; reflexivity |]. split; vm_compute; reflexivity.
  - apply (project_without_technologies_makes_the_resolver_throw
             Js.SHIPPED_heap Js.SHIPPED_DATA ps
             (ResumeData.contact Data.RESUME_DATA)
             (ResumeData.education Data.RESUME_DATA)
             (ResumeData.work Data.RESUME_DATA)
             (ResumeData.skills Data.RESUME_DATA)
             l [] [] bad (tail elems) pps); vm_compute; reflexivity.
Defined.

(** ** Requests against the schema of type-defs.ts *)

Module GraphQLFacts.
Import Conformance.

Lemma selection_nested_ind (P : selection -> Prop) :
  (forall name subs, Forall P subs -> P (Select name subs)) ->
  forall s, P s.
Proof.
  intros H. fix IH 1. intros [name subs]. apply H.
  revert subs. fix IHs 1. intros [|s subs]; constructor; [apply IH | apply IHs].
Qed.

Lemma lookup_field_Some (fs : list field) (name : string) (f : field) :
  lookup_field fs name = Some f -> In f fs /\ fname f = name.
Proof.
  induction fs as [|g fs IH]; [discriminate |]. cbn [lookup_field].
  destruct (String.eqb (fname g) name) eqn:E.
  - intros [= <-]. apply String.eqb_eq in E. split; [by left | exact E].
  - intros H. destruct (IH H). split; [by right | assumption].
Qed.

Lemma flat_map_nil {A B : Type} (f : A -> list B) (l : list A) :
  flat_map f l = [] -> Forall (fun x => f x = []) l.
Proof.
  induction l as [|x l IH]; [constructor |]. cbn [flat_map].
  intros H. apply app_eq_nil in H as [Hx Hl]. constructor; auto.
Qed.

(** A selection that passes validation against an object type is executed
    without a field error on every object that fits the type. *)
Lemma execute_conforming (schema : Schema) (s : selection) :
  forall (parent : string) (fields : list (string * json)) (fs : list field),
    lookup_type (types schema) parent = Some fs ->
    (forall f, In f fs ->
       conforms (types schema) (ftype f) (nullable f) (property fields (fname f))) ->
    validate schema parent s = [] ->
    is_Some (execute schema parent (JObject fields) s).
Proof.
  induction s as [name subs IH] using selection_nested_ind.
  intros parent fields fs Hfs Hconf Hvalid.
  cbn [validate] in Hvalid. cbn [execute]. unfold field_of in *. rewrite Hfs in *.
  destruct (lookup_field fs name) as [f|] eqn:Hf; [| discriminate].
  apply lookup_field_Some in Hf as [Hin <-]. specialize (Hconf f Hin).
  match goal with
  | |- context [?c (ftype f) (nullable f) (property fields (fname f))] =>
      set (complete := c)
  end.
  enough (is_Some (complete (ftype f) (nullable f) (property fields (fname f))))
    as [r ->] by (by eexists).
  revert Hconf Hvalid.
  generalize (nullable f) (property fields (fname f)). generalize (ftype f).
  intros t. induction t as [| |n|t IHt]; intros nb v Hconf Hvalid;
    inversion Hconf; subst; try (by eexists).
  - (* an object *)
    cbn [named] in Hvalid. destruct subs as [|s subs]; [discriminate |].
    apply flat_map_nil in Hvalid.
    subst complete. cbn -[mapM]. apply fmap_is_Some, mapM_is_Some.
    apply Forall_forall. intros s' Hs'.
    rewrite Forall_forall in IH, Hvalid.
    match goal with
    | Hl : lookup_type _ n = Some ?fs', Hc : forall f, In f ?fs' -> _ |- _ =>
        exact (IH s' Hs' n _ fs' Hl Hc (Hvalid s' Hs'))
    end.
  - (* a list *)
    cbn [named] in Hvalid.
    subst complete. cbn -[mapM]. apply fmap_is_Some, mapM_is_Some.
    match goal with
    | Hitems : Forall _ ?items |- Forall _ ?items =>
        eapply Forall_impl; [exact Hitems |]
    end.
    intros x Hx. exact (IHt false x Hx Hvalid).
Qed.

(** *** What the resolver returns fits the schema *)

Ltac each_field :=
  let f := fresh "f" in
  let Hin := fresh "Hin" in
  intros f Hin; cbn in Hin;
  repeat (destruct Hin as [<- | Hin]); [.. | destruct Hin]; cbn.

Ltac fits :=
  match goal with
  | |- conforms _ _ true (of_optional _ ?o) => destruct o; cbn
  | _ => idtac
  end;
  first [ apply conforms_undefined | apply conforms_string | apply conforms_boolean
        | apply conforms_list; apply Forall_forall; intros ? ?; apply conforms_string ].

Section Fits.
Variable qs : list field.
Let ts : list (string * list field) := ("Query", qs) :: objectTypes.

Lemma conforms_strings (nb : bool) (l : list string) :
  conforms ts (TList TString) nb (of_strings l).
Proof.
  apply conforms_list. apply Forall_forall. intros x Hx.
  apply list_elem_of_In, in_map_iff in Hx as (s & <- & _). apply conforms_string.
Qed.

Lemma conforms_array {A : Type} (of_ : A -> json) (t : gtype) (nb : bool) (l : list A) :
  (forall a, conforms ts t false (of_ a)) ->
  conforms ts (TList t) nb (JArray (map of_ l)).
Proof.
  intros H. apply conforms_list. apply Forall_forall. intros x Hx.
  apply list_elem_of_In, in_map_iff in Hx as (a & <- & _). apply H.
Qed.

Ltac field_fits :=
  first [ apply conforms_strings
        | match goal with
          | |- conforms _ _ true (of_optional _ ?o) =>
              destruct o; cbn; first [ apply conforms_undefined | apply conforms_string
                                     | apply conforms_boolean | apply conforms_strings ]
          end
        | apply conforms_string | apply conforms_boolean ].

Lemma conforms_Social (nb : bool) (x : TypeDefs.Social.t) :
  conforms ts (TObject "Social") nb (of_Social x).
Proof. eapply conforms_object; [reflexivity |]. each_field; field_fits. Qed.

Lemma conforms_Contact (nb : bool) (x : TypeDefs.Contact.t) :
  conforms ts (TObject "Contact") nb (of_Contact x).
Proof.
  eapply conforms_object; [reflexivity |]. each_field; try field_fits.
  apply conforms_array, conforms_Social.
Qed.

Lemma conforms_Education (nb : bool) (x : TypeDefs.Education.t) :
  conforms ts (TObject "Education") nb (of_Education x).
Proof. eapply conforms_object; [reflexivity |]. each_field; field_fits. Qed.

Lemma conforms_Work (nb : bool) (x : TypeDefs.Work.t) :
  conforms ts (TObject "Work") nb (of_Work x).
Proof. eapply conforms_object; [reflexivity |]. each_field; field_fits. Qed.

Lemma conforms_Link (nb : bool) (x : TypeDefs.Link.t) :
  conforms ts (TObject "Link") nb (of_Link x).
Proof. eapply conforms_object; [reflexivity |]. each_field; field_fits. Qed.

Lemma conforms_Project (nb : bool) (x : TypeDefs.Project.t) :
  conforms ts (TObject "Project") nb (of_Project x).
Proof.
  eapply conforms_object; [reflexivity |]. each_field; try field_fits.
  apply conforms_array, conforms_Link.
Qed.

Lemma conforms_Me (nb : bool) (x : TypeDefs.Me.t) :
  conforms ts (TObject "Me") nb (of_Me x).
Proof.
  eapply conforms_object; [reflexivity |]. each_field; try field_fits.
  - apply conforms_Contact.
  - apply conforms_array, conforms_Education.
  - apply conforms_array, conforms_Work.
  - apply conforms_array, conforms_Project.
Qed.

End Fits.

(** The server with the schema of [MeResolver]: a request that passes
    validation is executed without an error. *)
Lemma valid_request_executes (d : ResumeData.t) (request : list selection) :
  flat_map (validate (buildSchema [MeResolver d]) "Query") request = [] ->
  exists fields,
    executeOperation (buildSchema [MeResolver d]) request
    = mkResponse (Some (JObject fields)) [].
Proof.
  intros Hvalid. unfold executeOperation. rewrite Hvalid.
  enough (is_Some (mapM (execute (buildSchema [MeResolver d]) "Query"
                           (rootValue (buildSchema [MeResolver d]))) request))
    as [fields ->] by (by exists fields).
  apply mapM_is_Some. apply flat_map_nil in Hvalid.
  apply Forall_forall. intros s Hs. rewrite Forall_forall in Hvalid.
  apply (execute_conforming _ s "Query" _ [Field_ "me" (TObject "Me")]);
    [reflexivity | | exact (Hvalid s Hs)].
  each_field. apply conforms_Me.
Qed.

(** Every error of validation carries the code of a validation failure. *)
Lemma validate_codes (schema : Schema) (s : selection) :
  forall parent,
    Forall (fun e => code e = "GRAPHQL_VALIDATION_FAILED") (validate schema parent s).
Proof.
  induction s as [name subs IH] using selection_nested_ind. intros parent.
  cbn [validate]. destruct (field_of schema parent name) as [f|]; [| by repeat constructor].
  destruct (named (ftype f)) as [| |n|t];
    try (destruct subs; by repeat constructor).
  destruct subs as [|s subs]; [by repeat constructor |].
  apply Forall_forall. intros e He.
  apply list_elem_of_In, in_flat_map in He as (s' & Hs' & He).
  rewrite Forall_forall in IH. specialize (IH s' (proj2 (list_elem_of_In _ _) Hs') n).
  rewrite Forall_forall in IH. apply IH. by apply list_elem_of_In.
Qed.

Lemma request_codes (schema : Schema) (request : list selection) :
  Forall (fun e => code e = "GRAPHQL_VALIDATION_FAILED")
         (flat_map (validate schema "Query") request).
Proof.
  apply Forall_forall. intros e He.
  apply list_elem_of_In, in_flat_map in He as (s & _ & He).
  pose proof (validate_codes schema s "Query") as H.
  rewrite Forall_forall in H. apply H. by apply list_elem_of_In.
Qed.

(** The key of an executed field is the name that was selected. *)
Lemma execute_key (schema : Schema) (parent : string) (source : json) (s : selection)
    (k : string) (r : json) :
  execute schema parent source s = Some (k, r) -> k = root_name s.
Proof.
  destruct s as [name subs]. cbn [execute root_name].
  destruct (field_of schema parent name); [| discriminate].
  destruct source; try discriminate.
  intros H. apply bind_Some in H as (r' & _ & [= <- _]). reflexivity.
Qed.

Lemma execute_keys (schema : Schema) (parent : string) (source : json)
    (subs : list selection) (fields : list (string * json)) :
  mapM (execute schema parent source) subs = Some fields ->
  map fst fields = map root_name subs.
Proof.
  rewrite mapM_Some. induction 1 as [|s [k r] subs fields Hs _ IH]; [reflexivity |].
  cbn [map fst]. by rewrite IH, (execute_key _ _ _ _ _ _ Hs).
Qed.

Lemma property_not_selected (fields : list (string * json)) (k : string) :
  forallb (fun k' => negb (String.eqb k' k)) (map fst fields) = true ->
  property fields k = JUndefined.
Proof.
  induction fields as [|[k' v] fields IH]; [reflexivity |].
  cbn [map fst forallb property]. intros H. apply andb_prop in H as [Hk Hrest].
  apply negb_true_iff in Hk. rewrite Hk. exact (IH Hrest).
Qed.

(** The root field [me]: the selection goes to what the resolver returned. *)
Lemma execute_me (d : ResumeData.t) (subs : list selection) :
  execute (buildSchema [MeResolver d]) "Query"
    (rootValue (buildSchema [MeResolver d])) (Select "me" subs)
  = (r ← JObject <$> mapM (execute (buildSchema [MeResolver d]) "Me"
                             (of_Me (Resolvers.me d))) subs;
     Some ("me", r)).
Proof. reflexivity. Qed.

(** The answer to [me { ... }] when the selection passes validation. *)
Lemma me_answer (d : ResumeData.t) (subs : list selection) :
  validate (buildSchema [MeResolver d]) "Query" (Select "me" subs) = [] ->
  exists fields,
    executeOperation (buildSchema [MeResolver d]) [Select "me" subs]
    = mkResponse (Some (JObject [("me", JObject fields)])) []
    /\ map fst fields = map root_name subs.
Proof.
  intros Hvalid.
  assert (Hall : flat_map (validate (buildSchema [MeResolver d]) "Query")
                   [Select "me" subs] = []).
  { cbn [flat_map]. by rewrite Hvalid. }
  destruct (valid_request_executes d [Select "me" subs] Hall) as [top Htop].
  unfold executeOperation in *. rewrite Hall in *.
  change (mapM ?f [?x]) with (y ← f x; k ← mapM f []; mret (y :: k)) in *.
  rewrite execute_me in *.
  destruct (mapM (execute (buildSchema [MeResolver d]) "Me"
                    (of_Me (Resolvers.me d))) subs) as [fields|] eqn:Hfields;
    [| discriminate].
  exists fields. split; [reflexivity | exact (execute_keys _ _ _ _ _ Hfields)].
Qed.

End GraphQLFacts.

(** X12. When the schema was built, every request that passes validation
    is answered with data and without errors, whatever the record is: the
    value the resolver returns has every field that type-defs.ts declares
    non-nullable, so no valid selection runs into a field error. *)
Theorem valid_requests_are_answered (throws : list ResolverClass -> bool)
    (RESUME_DATA : ResumeData.t) (request : list selection)
    (Hbuilt : throws [MeResolver RESUME_DATA] = false)
    (Hvalid : flat_map (validate (GraphQL.buildSchema [MeResolver RESUME_DATA]) "Query")
                request = []) :
  exists fields,
    Route.POST throws RESUME_DATA request
    = Some (mkResponse (Some (JObject fields)) []).
Proof.
  unfold Route.POST, Route.load, Route.buildSchema. rewrite Hbuilt.
  unfold Route.handler.
  destruct (GraphQLFacts.valid_request_executes RESUME_DATA request Hvalid)
    as [fields ->].
  by exists fields.
Qed.

Lemma valid_requests_are_answered_witness :
  Route.healthy [MeResolver Data.RESUME_DATA] = false
  /\ flat_map (validate (GraphQL.buildSchema [MeResolver Data.RESUME_DATA]) "Query")
       Client.me_name_email = []
  /\ exists fields,
       Route.POST Route.healthy Data.RESUME_DATA Client.me_name_email
       = Some (mkResponse (Some (JObject fields)) []).
Proof.
  split; [reflexivity |]. split; [reflexivity |].
  apply (valid_requests_are_answered Route.healthy Data.RESUME_DATA
           Client.me_name_email); reflexivity.
Defined.




(** X15. The client check of the API reference, [validateResume], accepts
    [data.me] of the answer to [me { name contact { email } }] for every
    record; it rejects [data.me] of the answer to every valid request
    [me { ... }] that does not select [contact], the basic request
    [me { name }] among them. *)
Theorem validateResume_needs_the_contact (RESUME_DATA : ResumeData.t)
    (subs : list selection)
    (Hvalid : validate (GraphQL.buildSchema [MeResolver RESUME_DATA]) "Query"
                (Select "me" subs) = [])
    (Hcontact : forallb (fun name => negb (String.eqb name "contact"))
                  (map root_name subs) = true) :
  (data_at (Route.handler (GraphQL.buildSchema [MeResolver RESUME_DATA])
              [Select "me" subs]) ["me"]
   ≫= Client.validateResume) = Some false
  /\ (data_at (Route.handler (GraphQL.buildSchema [MeResolver RESUME_DATA])
                 Client.me_name_email) ["me"]
      ≫= Client.validateResume) = Some true.
Proof.
  split; [| reflexivity].
  destruct (GraphQLFacts.me_answer RESUME_DATA subs Hvalid) as (fields & Hrun & Hkeys).
  unfold Route.handler. rewrite Hrun. rewrite <- Hkeys in Hcontact.
  cbn. unfold Client.validateResume. cbn [Client.member].
  rewrite (GraphQLFacts.property_not_selected fields "contact" Hcontact).
  by destruct (Client.typeof_string (property fields "name")).
Qed.

Lemma validateResume_needs_the_contact_witness :
  validate (GraphQL.buildSchema [MeResolver Data.RESUME_DATA]) "Query"
    (Select "me" [Select "name" []]) = []
  /\ (data_at (Route.handler (GraphQL.buildSchema [MeResolver Data.RESUME_DATA])
                 me_name) ["me"]
      ≫= Client.validateResume) = Some false.
Proof.
  split; [reflexivity |].
  apply (validateResume_needs_the_contact Data.RESUME_DATA [Select "name" []]);
    reflexivity.
Defined.
